(** * Lane tracking of [Advanced_Lane_Lines.ipynb]: a shallow embedding

    The notebook's cell 13 ([class Line]) and cell 15 ([find_lanes]) are
    embedded here: the sliding-window search over the warped binary image,
    the per-lane update of the two module-level [Line] objects [left] and
    [right], and the lateral offset reported at the end of a frame.

    Conventions.
    - numpy's float64 values are read as exact rationals ([Q]); pixel
      coordinates and counts are integers ([Z], [nat]).
    - [collections.deque(maxlen = n)] is a list, oldest entry first.
    - Python exceptions are values of [exn]; a computation that raises
      keeps the mutations made before the raise, so the monad [M] returns
      the state on both outcomes.
    - [np.polyfit]'s least-squares core is a parameter ([lstsq]); its
      argument checks are written out.
    - The radius of curvature, a float power and a float division, is
      embedded on its own ([curverad]) over the extended reals; the [Line]
      record leaves the field out, since no code reads it back.
    - The OpenCV drawing calls are outside the model. *)

From Stdlib Require Import List ZArith QArith Qabs Bool Arith Lia.
From Stdlib Require Import Reals Qreals Lra Psatz.
Import ListNotations.

(** ** Exceptions and the state monad *)

Inductive exn : Set :=
| ValueError
| TypeError
| ZeroDivisionError
| IndexError.

Definition M (S A : Type) : Type := S -> (exn + A) * S.

Definition ret {S A : Type} (a : A) : M S A := fun s => (inr a, s).

Definition bind {S A B : Type} (c : M S A) (k : A -> M S B) : M S B :=
  fun s =>
    match c s with
    | (inl e, s') => (inl e, s')
    | (inr a, s') => k a s'
    end.

Definition raise {S A : Type} (e : exn) : M S A := fun s => (inl e, s).

Definition get {S : Type} : M S S := fun s => (inr s, s).

Definition modify {S : Type} (f : S -> S) : M S unit := fun s => (inr tt, f s).

(** A pure step that may raise. *)
Definition lift {S A : Type} (r : exn + A) : M S A := fun s => (r, s).

(** [None] used where Python needs a value: [TypeError]. *)
Definition unwrap {S A : Type} (o : option A) : M S A :=
  match o with
  | Some a => ret a
  | None => raise TypeError
  end.

Declare Scope monad_scope.
Delimit Scope monad_scope with monad.
Notation "x <- c ;; k" := (bind c (fun x => k))
  (at level 61, c at next level, right associativity) : monad_scope.
Notation "c ;; k" := (bind c (fun _ => k))
  (at level 61, right associativity) : monad_scope.

(** ** Numbers and arrays *)

Local Open Scope Q_scope.

Definition Qlt_bool (x y : Q) : bool := negb (Qle_bool y x).

Definition Qsum (l : list Q) : Q := fold_right Qplus 0 l.

(** [np.mean] of a one-dimensional array. *)
Definition mean (l : list Q) : Q := Qsum l / inject_Z (Z.of_nat (length l)).

(** Sum of squares: the square of [np.linalg.norm]. *)
Definition sumsq (v : list Q) : Q := Qsum (map (fun x => x * x) v).

Fixpoint map2 {A B C : Type} (f : A -> B -> C) (u : list A) (v : list B) : list C :=
  match u, v with
  | x :: u', y :: v' => f x y :: map2 f u' v'
  | _, _ => []
  end.

(** [u - v] on one-dimensional arrays, with numpy's broadcasting: equal
    lengths, or one side of length one; otherwise [ValueError]. *)
Definition vsub (u v : list Q) : exn + list Q :=
  if (length u =? length v)%nat then inr (map2 Qminus u v)
  else if (length u =? 1)%nat then inr (map (fun y => hd 0 u - y) v)
  else if (length v =? 1)%nat then inr (map (fun x => x - hd 0 v) u)
  else inl ValueError.

Definition column (j : nat) (rows : list (list Q)) : list Q :=
  map (fun r => nth j r 0) rows.

(** [np.average(np.asarray(rows), 0)]: the mean of each column. Rows of
    unequal length do not form a two-dimensional array ([ValueError]). On
    no rows numpy yields nan with a warning; [Q] has no nan and the case is
    reported as [ValueError] too. *)
Definition average_rows (rows : list (list Q)) : exn + list Q :=
  match rows with
  | [] => inl ValueError
  | r :: rs =>
      if forallb (fun r' => (length r' =? length r)%nat) rs
      then inr (map (fun j => mean (column j rows)) (seq 0 (length r)))
      else inl ValueError
  end.

(** The slice [l[-k:]] for [k > 0]. *)
Definition lastn {A : Type} (k : nat) (l : list A) : list A :=
  skipn (length l - k) l.

(** ** Quadratic fits *)

(** The coefficient array of [np.polyfit(y, x, 2)]: x = f0 y^2 + f1 y + f2. *)
Record poly : Set := mkPoly { f0 : Q; f1 : Q; f2 : Q }.

(** [fit[0]*y**2 + fit[1]*y + fit[2]] *)
Definition polyval (fit : poly) (y : Q) : Q :=
  f0 fit * y ^ 2 + f1 fit * y + f2 fit.

(** [np.average(np.array(fits), 0)] on a non-empty sequence of fits; both
    call sites run on a non-empty deque. *)
Definition average_fits (fits : list poly) : poly :=
  mkPoly (mean (map f0 fits)) (mean (map f1 fits)) (mean (map f2 fits)).

(** [np.linspace(0, H-1, H)] *)
Definition linspace (H : nat) : list Q :=
  map (fun i => inject_Z (Z.of_nat i)) (seq 0 H).

(** ** Module-level constants (cells 13 and 15) *)

Definition n : nat := 15.
Definition max_distance : Q := 2.8.
Definition max_rel_fitx : Q := 0.15.
Definition n_avg : nat := 8.
Definition ym_per_pix : Q := 30 / 720.
Definition xm_per_pix : Q := 3.7 / 700.

(** ** [collections.deque] with [maxlen] *)

(** [d.append(x)]: when the deque is full the leftmost entry is dropped. *)
Definition deque_append {A : Type} (maxlen : nat) (d : list A) (x : A) : list A :=
  let d' := d ++ [x] in
  if (maxlen <? length d')%nat then tl d' else d'.

(** [d.pop()]: removes the rightmost entry; [IndexError] on an empty deque. *)
Definition deque_pop {A : Type} (d : list A) : exn + list A :=
  match d with
  | [] => inl IndexError
  | _ => inr (removelast d)
  end.

(** ** [class Line] *)

Record Line : Type := mkLine {
  detected : bool;
  recent_xfitted : list (list Q);
  bestx : option (list Q);
  recent_fits : list poly;
  best_fit : option poly;
  (** [None] stands for the placeholder [[np.array([False])]]. *)
  current_fit : option poly;
  line_base_pos : option Q;
  diffs : list Q;
  allx : option (list Z);
  ally : option (list Z)
}.

(** [Line()] *)
Definition Line_init : Line :=
  mkLine false [] None [] None None None [0; 0; 0] None None.

Definition set_detected (b : bool) (l : Line) : Line :=
  mkLine b (recent_xfitted l) (bestx l) (recent_fits l) (best_fit l)
         (current_fit l) (line_base_pos l) (diffs l) (allx l) (ally l).
Definition set_recent_xfitted (d : list (list Q)) (l : Line) : Line :=
  mkLine (detected l) d (bestx l) (recent_fits l) (best_fit l)
         (current_fit l) (line_base_pos l) (diffs l) (allx l) (ally l).
Definition set_bestx (v : option (list Q)) (l : Line) : Line :=
  mkLine (detected l) (recent_xfitted l) v (recent_fits l) (best_fit l)
         (current_fit l) (line_base_pos l) (diffs l) (allx l) (ally l).
Definition set_recent_fits (d : list poly) (l : Line) : Line :=
  mkLine (detected l) (recent_xfitted l) (bestx l) d (best_fit l)
         (current_fit l) (line_base_pos l) (diffs l) (allx l) (ally l).
Definition set_best_fit (v : option poly) (l : Line) : Line :=
  mkLine (detected l) (recent_xfitted l) (bestx l) (recent_fits l) v
         (current_fit l) (line_base_pos l) (diffs l) (allx l) (ally l).
Definition set_current_fit (v : option poly) (l : Line) : Line :=
  mkLine (detected l) (recent_xfitted l) (bestx l) (recent_fits l) (best_fit l)
         v (line_base_pos l) (diffs l) (allx l) (ally l).
Definition set_line_base_pos (v : option Q) (l : Line) : Line :=
  mkLine (detected l) (recent_xfitted l) (bestx l) (recent_fits l) (best_fit l)
         (current_fit l) v (diffs l) (allx l) (ally l).
Definition set_diffs (v : list Q) (l : Line) : Line :=
  mkLine (detected l) (recent_xfitted l) (bestx l) (recent_fits l) (best_fit l)
         (current_fit l) (line_base_pos l) v (allx l) (ally l).
Definition set_allx (v : option (list Z)) (l : Line) : Line :=
  mkLine (detected l) (recent_xfitted l) (bestx l) (recent_fits l) (best_fit l)
         (current_fit l) (line_base_pos l) (diffs l) v (ally l).
Definition set_ally (v : option (list Z)) (l : Line) : Line :=
  mkLine (detected l) (recent_xfitted l) (bestx l) (recent_fits l) (best_fit l)
         (current_fit l) (line_base_pos l) (diffs l) (allx l) v.

(** ** The per-lane update of [find_lanes] *)

Local Open Scope monad_scope.

(** [(fit[0]*y**2 + fit[1]*y + fit[2] - 640.0)*3.7/600.0] *)
Definition validation_base_pos (fit : poly) (y : Q) : Q :=
  (polyval fit y - 640) * 3.7 / 600.

(** [np.linalg.norm(d)/np.linalg.norm(bx) < t]. Over the reals, for
    [0 < t], the quotient of the two norms is below [t] exactly when
    [sumsq d < t^2 * sumsq bx]; for [norm(bx) = 0] numpy's quotient is inf
    or nan, the comparison is false, and so is the inequality of squares. *)
Definition rel_diff_lt (d bx : list Q) (t : Q) : bool :=
  Qlt_bool (sumsq d) (t ^ 2 * sumsq bx).

(** [abs(line_base_pos) <= max_distance and rel_diff < max_rel_fitx] *)
Definition accept_test (base_pos : Q) (d bx : list Q) : bool :=
  Qle_bool (Qabs base_pos) max_distance && rel_diff_lt d bx max_rel_fitx.

(** The empty-history branch: the fit seeds the lane. *)
Definition seed_line (fit : poly) (fitx : list Q) : M Line (poly * list Q) :=
  modify (set_detected true) ;;
  modify (fun l => set_recent_xfitted (deque_append n (recent_xfitted l) fitx) l) ;;
  modify (fun l => set_recent_fits (deque_append n (recent_fits l) fit) l) ;;
  modify (set_current_fit (Some fit)) ;;
  modify (set_best_fit (Some fit)) ;;
  modify (set_bestx (Some fitx)) ;;
  ret (fit, fitx).

(** The branch taken when the acceptance test holds. *)
Definition accept_line (fit : poly) (fitx : list Q) : M Line unit :=
  modify (set_detected true) ;;
  modify (fun l => set_recent_xfitted (deque_append n (recent_xfitted l) fitx) l) ;;
  l1 <- get ;;
  bx <- lift (average_rows (recent_xfitted l1)) ;;
  modify (set_bestx (Some bx)) ;;
  modify (fun l => set_recent_fits (deque_append n (recent_fits l) fit) l) ;;
  modify (fun l => set_best_fit (Some (average_fits (recent_fits l))) l) ;;
  modify (set_current_fit (Some fit)).

(** The branch taken when the acceptance test fails. *)
Definition reject_line : M Line unit :=
  modify (set_detected false) ;;
  l1 <- get ;;
  fits <- lift (deque_pop (recent_fits l1)) ;;
  modify (set_recent_fits fits) ;;
  xs <- lift (deque_pop (recent_xfitted l1)) ;;
  modify (set_recent_xfitted xs) ;;
  if (0 <? length fits)%nat then
    bx <- lift (average_rows (lastn n_avg xs)) ;;
    modify (set_bestx (Some bx)) ;;
    modify (set_best_fit (Some (average_fits (lastn n_avg fits)))) ;;
    modify (fun l => set_current_fit (best_fit l) l)
  else ret tt.

(** The update of one lane. The code is written out twice in [find_lanes],
    once for [right] and once for [left]; the two copies differ only in the
    row [ybase] at which the fit is evaluated for [line_base_pos]: [y_eval]
    for [right], the literal [720.0] for [left]. The result is the pair
    of local variables [(fit, fitx)] as the code leaves them. *)
Definition update_line (ploty : list Q) (ybase : Q) (fit : poly) (fitx : list Q)
    (xs ys : list Z) : M Line (poly * list Q) :=
  l0 <- get ;;
  if (length (recent_fits l0) =? 0)%nat then seed_line fit fitx
  else
    let base_pos := validation_base_pos fit ybase in
    modify (set_line_base_pos (Some base_pos)) ;;
    bx <- unwrap (bestx l0) ;;
    d <- lift (vsub fitx bx) ;;
    modify (set_diffs d) ;;
    (if accept_test base_pos d bx then accept_line fit fitx else reject_line) ;;
    modify (set_allx (Some xs)) ;;
    modify (set_ally (Some ys)) ;;
    l1 <- get ;;
    fit' <- unwrap (best_fit l1) ;;
    ret (fit', map (polyval fit') ploty).

Definition update_right (ploty : list Q) (y_eval : Q) := update_line ploty y_eval.
Definition update_left (ploty : list Q) := update_line ploty 720.

(** ** The warped binary image and the sliding-window search *)

(** A two-dimensional uint8 array: [shape0] rows, [shape1] columns. *)
Record image : Type := mkImage {
  shape0 : nat;
  shape1 : nat;
  pixel : nat -> nat -> Z
}.

Definition Zsum (l : list Z) : Z := fold_right Z.add 0%Z l.

(** [np.sum(binary_warped[int(shape[0]/2):,:], axis=0)] *)
Definition histogram (img : image) : list Z :=
  map (fun x => Zsum (map (fun y => pixel img y x)
                          (seq (shape0 img / 2) (shape0 img - shape0 img / 2))))
      (seq 0 (shape1 img)).

Fixpoint argmax_from (best_i : nat) (best : Z) (i : nat) (l : list Z) : nat :=
  match l with
  | [] => best_i
  | x :: l' =>
      if (best <? x)%Z then argmax_from i x (S i) l'
      else argmax_from best_i best (S i) l'
  end.

(** [np.argmax]: the first index of the maximum; [ValueError] on an empty
    array. *)
Definition argmax (l : list Z) : exn + nat :=
  match l with
  | [] => inl ValueError
  | x :: l' => inr (argmax_from 0 x 1 l')
  end.

(** [binary_warped.nonzero()]: the (row, column) pairs of the nonzero
    pixels in row-major order. *)
Definition nonzero (img : image) : list (Z * Z) :=
  flat_map (fun y =>
    flat_map (fun x =>
      if (pixel img y x =? 0)%Z then [] else [(Z.of_nat y, Z.of_nat x)])
      (seq 0 (shape1 img)))
    (seq 0 (shape0 img)).

(** The indices of [( ... >= y_low) & ( ... < y_high) & ( ... >= x_low) &
    ( ... < x_high)] that are set. *)
Definition good_inds (nonzeroy nonzerox : list Z) (y_low y_high x_low x_high : Z)
    : list nat :=
  filter (fun i =>
            let y := nth i nonzeroy 0%Z in
            let x := nth i nonzerox 0%Z in
            (y_low <=? y)%Z && (y <? y_high)%Z && (x_low <=? x)%Z && (x <? x_high)%Z)
         (seq 0 (length nonzeroy)).

(** [a[inds]] *)
Definition take (a : list Z) (inds : list nat) : list Z :=
  map (fun i => nth i a 0%Z) inds.

(** [np.int(np.mean(xs))]: the mean truncated towards zero. *)
Definition int_mean (xs : list Z) : Z :=
  Z.quot (Zsum xs) (Z.of_nat (length xs)).

(** The variables the window loop carries from one band to the next. *)
Record search : Set := mkSearch {
  leftx_current : Z;
  rightx_current : Z;
  left_lane_inds : list (list nat);
  right_lane_inds : list (list nat)
}.

(** [leftx_current] (or [rightx_current]) after a band. *)
Definition recenter (minpix : nat) (nonzerox : list Z) (good : list nat)
    (current : Z) : Z :=
  if (minpix <? length good)%nat then int_mean (take nonzerox good) else current.

(** The body of [for window in range(nwindows)]. *)
Definition window_step (height : nat) (window_height margin : Z) (minpix : nat)
    (nonzeroy nonzerox : list Z) (s : search) (window : nat) : search :=
  let win_y_low := (Z.of_nat height - (Z.of_nat window + 1) * window_height)%Z in
  let win_y_high := (Z.of_nat height - Z.of_nat window * window_height)%Z in
  let win_xleft_low := (leftx_current s - margin)%Z in
  let win_xleft_high := (leftx_current s + margin)%Z in
  let win_xright_low := (rightx_current s - margin)%Z in
  let win_xright_high := (rightx_current s + margin)%Z in
  let good_left_inds :=
    good_inds nonzeroy nonzerox win_y_low win_y_high win_xleft_low win_xleft_high in
  let good_right_inds :=
    good_inds nonzeroy nonzerox win_y_low win_y_high win_xright_low win_xright_high in
  mkSearch (recenter minpix nonzerox good_left_inds (leftx_current s))
           (recenter minpix nonzerox good_right_inds (rightx_current s))
           (left_lane_inds s ++ [good_left_inds])
           (right_lane_inds s ++ [good_right_inds]).

(** The pixel clusters of a frame: [(leftx, lefty, rightx, righty)]. *)
Definition clusters : Set := (list Z * list Z * list Z * list Z)%type.

(** [find_lanes] from the histogram to the extraction of the pixel
    positions of both sides. *)
Definition window_search (binary_warped : image) (nwindows : nat) (margin : Z)
    (minpix : nat) : exn + clusters :=
  let hist := histogram binary_warped in
  let midpoint := (length hist / 2)%nat in
  match argmax (firstn midpoint hist) with
  | inl e => inl e
  | inr leftx_base =>
  match argmax (skipn midpoint hist) with
  | inl e => inl e
  | inr right_peak =>
      let rightx_base := (right_peak + midpoint)%nat in
      if (nwindows =? 0)%nat then inl ZeroDivisionError
      else
        let window_height := Z.of_nat (shape0 binary_warped / nwindows) in
        let nz := nonzero binary_warped in
        let nonzeroy := map fst nz in
        let nonzerox := map snd nz in
        let s := fold_left
                   (window_step (shape0 binary_warped) window_height margin minpix
                                nonzeroy nonzerox)
                   (seq 0 nwindows)
                   (mkSearch (Z.of_nat leftx_base) (Z.of_nat rightx_base) [] []) in
        let left_inds := concat (left_lane_inds s) in
        let right_inds := concat (right_lane_inds s) in
        inr (take nonzerox left_inds, take nonzeroy left_inds,
             take nonzerox right_inds, take nonzeroy right_inds)
  end
  end.

(** ** [find_lanes] *)

(** The two module-level objects [left = Line()] and [right = Line()]. *)
Record Lanes : Type := mkLanes { left : Line; right : Line }.

Definition Lanes_init : Lanes := mkLanes Line_init Line_init.

Definition on_left {A : Type} (c : M Line A) : M Lanes A :=
  fun s => let (r, l) := c (left s) in (r, mkLanes l (right s)).

Definition on_right {A : Type} (c : M Line A) : M Lanes A :=
  fun s => let (r, l) := c (right s) in (r, mkLanes (left s) l).

(** [np.max] of a one-dimensional array; [ValueError] when it is empty. *)
Definition amax (v : list Q) : exn + Q :=
  match v with
  | [] => inl ValueError
  | x :: v' => inr (fold_left (fun m y => if Qle_bool m y then y else m) v' x)
  end.

(** [v[i]] with Python's negative indices; [IndexError] out of range. *)
Definition getitem (v : list Q) (i : Z) : exn + Q :=
  let len := Z.of_nat (length v) in
  if ((0 <=? i) && (i <? len))%Z then inr (nth (Z.to_nat i) v 0)
  else if ((- len <=? i) && (i <? 0))%Z then inr (nth (Z.to_nat (len + i)) v 0)
  else inl IndexError.

(** An integer array read as floats, and [v*k] for a float [k]. *)
Definition to_float (v : list Z) : list Q := map inject_Z v.

Definition scale (k : Q) (v : list Z) : list Q :=
  map (fun z => inject_Z z * k) v.

(** [lane_center = (lx + rx)/2.0; image_center = 1280/2.0;
    line_base_pos = (lane_center - image_center)*xm_per_pix] *)
Definition reported_offset (lx rx : Q) : Q :=
  let lane_center := (lx + rx) / 2 in
  let image_center := 1280 / 2 in
  (lane_center - image_center) * xm_per_pix.

(** What a frame hands to the drawing code: the two curves of the overlay
    polygon and the offset printed on the image. *)
Record output : Type := mkOutput {
  out_left_fitx : list Q;
  out_right_fitx : list Q;
  out_line_base_pos : Q
}.

Section FindLanes.

(** The least-squares solver inside [np.polyfit(x, y, 2)], taken to
    return coefficients on every non-empty input (numpy warns of a poorly
    conditioned fit and still returns). *)
Variable lstsq : list Q -> list Q -> poly.

(** [img.shape[0]], where [img] is the notebook-level variable that
    [find_lanes] reads for [image_size] (cell 3 leaves the last
    calibration image in it). *)
Variable img_shape0 : nat.

(** [np.polyfit(x, y, 2)] with its argument checks. *)
Definition polyfit (x y : list Q) : exn + poly :=
  if (length x =? 0)%nat then inl TypeError
  else if negb (length x =? length y)%nat then inl TypeError
  else inr (lstsq x y).

Definition find_lanes (binary_warped : image) (nwindows : nat) (margin : Z)
    (minpix : nat) : M Lanes output :=
  cl <- lift (window_search binary_warped nwindows margin minpix) ;;
  let '(leftx, lefty, rightx, righty) := cl in
  left_fit <- lift (polyfit (to_float lefty) (to_float leftx)) ;;
  right_fit <- lift (polyfit (to_float righty) (to_float rightx)) ;;
  _ <- lift (polyfit (scale ym_per_pix lefty) (scale xm_per_pix leftx)) ;;
  _ <- lift (polyfit (scale ym_per_pix righty) (scale xm_per_pix rightx)) ;;
  let ploty := linspace (shape0 binary_warped) in
  let left_fitx := map (polyval left_fit) ploty in
  let right_fitx := map (polyval right_fit) ploty in
  y_eval <- lift (amax ploty) ;;
  r <- on_right (update_right ploty y_eval right_fit right_fitx rightx righty) ;;
  l <- on_left (update_left ploty left_fit left_fitx leftx lefty) ;;
  let right_fitx := snd r in
  let left_fitx := snd l in
  let bottom := (Z.of_nat img_shape0 - 1)%Z in
  lx <- lift (getitem left_fitx bottom) ;;
  rx <- lift (getitem right_fitx bottom) ;;
  let base_pos := reported_offset lx rx in
  modify (fun s => mkLanes (set_line_base_pos (Some base_pos) (left s)) (right s)) ;;
  modify (fun s => mkLanes (left s) (set_line_base_pos (Some base_pos) (right s))) ;;
  ret (mkOutput left_fitx right_fitx base_pos).

(** [process_image], from the warped binary image on: it calls
    [find_lanes(binary_warped)] with the defaults [nwindows = 9,
    margin = 100, minpix = 50]. *)
Definition process_image (binary_warped : image) : M Lanes output :=
  find_lanes binary_warped 9 100%Z 50.

(** A video: the frames in order; the first exception ends the run. *)
Fixpoint run_video (frames : list image) (s : Lanes) : (exn + unit) * Lanes :=
  match frames with
  | [] => (inr tt, s)
  | f :: frames' =>
      match process_image f s with
      | (inl e, s') => (inl e, s')
      | (inr _, s') => run_video frames' s'
      end
  end.

End FindLanes.

(** ** An exact least-squares solver

    The quadratic least-squares fit of [x] against [y] through the normal
    equations, solved by Cramer's rule. It is the exact value of
    [np.polyfit(y, x, 2)] when the [y] take three distinct values or more;
    it instantiates [lstsq] in the concrete runs below. *)

Definition moment (k : nat) (y w : list Q) : Q :=
  Qsum (map2 (fun yi wi => yi ^ Z.of_nat k * wi) y w).

Definition det3 (a b c d e f g h i : Q) : Q :=
  a * (e * i - f * h) - b * (d * i - f * g) + c * (d * h - e * g).

Definition normal_fit (y x : list Q) : poly :=
  let ones := map (fun _ => 1) y in
  let s0 := moment 0 y ones in
  let s1 := moment 1 y ones in
  let s2 := moment 2 y ones in
  let s3 := moment 3 y ones in
  let s4 := moment 4 y ones in
  let t0 := moment 0 y x in
  let t1 := moment 1 y x in
  let t2 := moment 2 y x in
  let dd := det3 s4 s3 s2 s3 s2 s1 s2 s1 s0 in
  mkPoly (Qred (det3 t2 s3 s2 t1 s2 s1 t0 s1 s0 / dd))
         (Qred (det3 s4 t2 s2 s3 t1 s1 s2 t0 s0 / dd))
         (Qred (det3 s4 s3 t2 s3 s2 t1 s2 s1 t0 / dd)).

(** The code that follows the accept-or-reject choice: [allx], [ally] and
    the local [fit], [fitx] recomputed from [best_fit]. *)
Definition after_choice (ploty : list Q) (xs ys : list Z)
    (c : (exn + unit) * Line) : (exn + poly * list Q) * Line :=
  match c with
  | (inl e, l) => (inl e, l)
  | (inr _, l) =>
      let l' := set_ally (Some ys) (set_allx (Some xs) l) in
      match best_fit l with
      | Some f => (inr (f, map (polyval f) ploty), l')
      | None => (inl TypeError, l')
      end
  end.

(** ** Well-formed lanes and sample data *)

(** What every lane reached from [Line()] on frames of height [H]
    satisfies: the two deques move together, every stored curve has [H]
    samples, and a lane with history has its smoothed estimates. *)
Definition Line_wf (H : nat) (l : Line) : Prop :=
  length (recent_xfitted l) = length (recent_fits l) /\
  Forall (fun c => length c = H) (recent_xfitted l) /\
  (recent_fits l <> [] ->
   exists bx bf, bestx l = Some bx /\ length bx = H /\ best_fit l = Some bf).

(** Both deques within their [maxlen]. *)
Definition bounded (l : Line) : Prop :=
  (length (recent_fits l) <= n)%nat /\ (length (recent_xfitted l) <= n)%nat.

(** [fit[0]*ploty**2 + fit[1]*ploty + fit[2]] over the rows of a frame of
    height [H]. *)
Definition sample (H : nat) (fit : poly) : list Q :=
  map (polyval fit) (linspace H).

(** A lane fed the fits of successive frames of height [H], each with the
    curve sampled from it and no pixel data. *)
Definition feed (H : nat) (ybase : Q) (fits : list poly) (l : Line) : Line :=
  fold_left
    (fun l' fit => snd (update_line (linspace H) ybase fit (sample H fit) [] [] l'))
    fits l.

(** The vertical line x = c. *)
Definition vertical (c : Q) : poly := mkPoly 0 0 c.

(** Fifteen nearby vertical lines, x = 700 to x = 714. *)
Definition ramp : list poly :=
  map (fun i => vertical (inject_Z (700 + Z.of_nat i))) (seq 0 15).

(** A frame of 6 rows and 8 columns with two lit columns, 1 and 6. *)
Definition two_columns : image :=
  mkImage 6 8 (fun _ x => if ((x =? 1) || (x =? 6))%nat then 255%Z else 0%Z).



(** The line x = y. *)
Definition diagonal : poly := mkPoly 0 1 0.

(** The arguments of one update, and a lane taken through a sequence of
    updates, each run to its end whether it returns or raises. *)
Record update_args : Type := mkArgs {
  u_ploty : list Q;
  u_ybase : Q;
  u_fit : poly;
  u_fitx : list Q;
  u_xs : list Z;
  u_ys : list Z
}.

Definition run_updates (us : list update_args) (l : Line) : Line :=
  fold_left
    (fun l' u =>
       snd (update_line (u_ploty u) (u_ybase u) (u_fit u) (u_fitx u) (u_xs u)
                        (u_ys u) l'))
    us l.

(** ** The search, step by step

    [window_search] in two parts: the seeds read off the histogram, and
    the loop over the bands. *)

(** [midpoint], [leftx_base] and [rightx_base]: the result is
    [(leftx_base, rightx_base)]. *)
Definition histogram_seeds (binary_warped : image) : exn + (nat * nat) :=
  let hist := histogram binary_warped in
  let midpoint := (length hist / 2)%nat in
  match argmax (firstn midpoint hist) with
  | inl e => inl e
  | inr leftx_base =>
      match argmax (skipn midpoint hist) with
      | inl e => inl e
      | inr right_peak => inr (leftx_base, (right_peak + midpoint)%nat)
      end
  end.

(** The state of the loop after the first [k] bands. *)
Definition window_loop (binary_warped : image) (nwindows : nat) (margin : Z)
    (minpix : nat) (leftx_base rightx_base : nat) (k : nat) : search :=
  fold_left
    (window_step (shape0 binary_warped)
                 (Z.of_nat (shape0 binary_warped / nwindows)) margin minpix
                 (map fst (nonzero binary_warped)) (map snd (nonzero binary_warped)))
    (seq 0 k)
    (mkSearch (Z.of_nat leftx_base) (Z.of_nat rightx_base) [] []).

(** The pixels of a cluster are lit pixels of the frame, below the rows
    that no band reaches. *)
Definition lit_pixels (binary_warped : image) (lowest : nat) (xs ys : list Z) : Prop :=
  length ys = length xs /\
  forall i, (i < length xs)%nat ->
    exists y x : nat,
      nth i ys 0%Z = Z.of_nat y /\ nth i xs 0%Z = Z.of_nat x /\
      (lowest <= y < shape0 binary_warped)%nat /\
      (x < shape1 binary_warped)%nat /\
      pixel binary_warped y x <> 0%Z.

(** What holds of the indices a side has collected after [k] bands of
    height [wh]: they index [nonzero], their rows lie in the [k] bottom
    bands, and none is repeated. *)
Definition collected_ok (height : nat) (wh : Z) (nonzeroy : list Z) (k : nat)
    (inds : list nat) : Prop :=
  (forall i, In i inds ->
     (i < length nonzeroy)%nat /\
     (Z.of_nat height - Z.of_nat k * wh <= nth i nonzeroy 0 < Z.of_nat height)%Z) /\
  NoDup inds.

(** ** Streaks of updates, agreement of the estimates and more sample data *)

(** Every update of a sequence finds a lane in the tracking state and
    fails the acceptance test. *)
Fixpoint all_rejected (us : list update_args) (l : Line) : Prop :=
  match us with
  | [] => True
  | u :: us' =>
      (exists bx d,
          bestx l = Some bx /\
          vsub (u_fitx u) bx = inr d /\
          accept_test (validation_base_pos (u_fit u) (u_ybase u)) d bx = false) /\
      all_rejected us'
        (snd (update_line (u_ploty u) (u_ybase u) (u_fit u) (u_fitx u) (u_xs u)
                          (u_ys u) l))
  end.

(** The stored curves of a lane are the fits of its history sampled over
    the rows of the frame, and its smoothed curve is, row by row, the
    value of its smoothed fit. *)
Definition samples_agree (H : nat) (l : Line) : Prop :=
  recent_xfitted l = map (sample H) (recent_fits l) /\
  match bestx l, best_fit l with
  | Some bx, Some bf => Forall2 Qeq bx (sample H bf)
  | None, None => True
  | _, _ => False
  end.

(** A frame of 5 rows and 4 columns whose column 1 is lit. *)
Definition tall_column : image :=
  mkImage 5 4 (fun _ x => if (x =? 1)%nat then 255%Z else 0%Z).

(** An update with the line x = 1200, too far from the centre of the
    frame to pass the acceptance test. *)
Definition far_update : update_args :=
  mkArgs (linspace 3) 2 (vertical 1200) (sample 3 (vertical 1200)) [] [].

(** A frame of 9 rows and 1280 columns with two lit columns, 300 and
    1000: one band per row under the default parameters. *)
Definition road : image :=
  mkImage 9 1280 (fun _ x => if ((x =? 300) || (x =? 1000))%nat then 255%Z else 0%Z).

(** A frame of 9 rows and 1280 columns with no lit pixel. *)
Definition dark_road : image := mkImage 9 1280 (fun _ _ => 0%Z).

(** A frame of 6 rows and 8 columns with two slanted lines: on row [y]
    the columns [y / 2] and [5 + y / 2] are lit. *)
Definition slanted : image :=
  mkImage 6 8 (fun y x => if ((x =? y / 2) || (x =? 5 + y / 2))%nat then 255%Z else 0%Z).

(** ** The radius of curvature

    [left_curverad] and [right_curverad] are computed from the world-space
    fits at the end of [find_lanes] and stored in [radius_of_curvature];
    nothing else reads them, and the lane state above leaves the field out.
    The computation is embedded on its own, over the reals extended with
    the values float64 has for a division by zero. *)

(** A float64 result: a real number, or one of inf, -inf and nan. *)
Inductive fval : Type :=
| Finite (r : R)
| PlusInf
| MinusInf
| NaN.

(** The [RuntimeWarning]s numpy emits for scalar division. *)
Inductive warning : Set := DivideByZero | InvalidValue.

(** [x / d] on numpy float64 scalars in the default error state: a zero
    divisor gives inf, -inf or nan with a warning, and raises nothing. *)
Definition fdiv (x d : R) : fval * list warning :=
  if Req_dec_T d 0%R then
    if Rlt_dec 0%R x then (PlusInf, [DivideByZero])
    else if Rlt_dec x 0%R then (MinusInf, [DivideByZero])
    else (NaN, [InvalidValue])
  else (Finite (x / d)%R, []).

(** [((1 + (2*fit_cr[0]*y_eval*ym_per_pix + fit_cr[1])**2)**1.5)
     / np.absolute(2*fit_cr[0])] *)
Definition curverad (fit_cr : poly) (y_eval : Q) : fval * list warning :=
  let a := Q2R (f0 fit_cr) in
  let b := Q2R (f1 fit_cr) in
  fdiv (Rpower (1 + (2 * a * Q2R y_eval * Q2R ym_per_pix + b) ^ 2) 1.5)%R
       (Rabs (2 * a))%R.

(** ** Proof automation *)

Arguments deque_append : simpl never.
Arguments average_rows : simpl never.
Arguments average_fits : simpl never.
Arguments lastn : simpl never.
Arguments vsub : simpl never.
Arguments validation_base_pos : simpl never.
Arguments accept_test : simpl never.
Arguments removelast : simpl never.

Ltac unfold_setters :=
  unfold set_detected, set_recent_xfitted, set_bestx, set_recent_fits,
    set_best_fit, set_current_fit, set_line_base_pos, set_diffs, set_allx,
    set_ally.

Ltac run_monad :=
  unfold bind, ret, raise, get, modify, lift, unwrap; unfold_setters; cbn.

Ltac frame_ends :=
  let E := fresh "E" in intros E; inversion E; subst; cbn; auto.

(** * Properties *)

(** ** The branches of the update, as state transformers *)

Lemma seed_line_run (fit : poly) (fitx : list Q) (l : Line) :
  seed_line fit fitx l =
  (inr (fit, fitx),
   mkLine true (deque_append n (recent_xfitted l) fitx) (Some fitx)
          (deque_append n (recent_fits l) fit) (Some fit) (Some fit)
          (line_base_pos l) (diffs l) (allx l) (ally l)).
Proof. reflexivity. Qed.

Lemma deque_pop_cons {A : Type} (d : list A) :
  d <> [] -> deque_pop d = inr (removelast d).
Proof. destruct d; [congruence | reflexivity]. Qed.

(** The histories after the reject branch, whatever its outcome. *)
Lemma reject_line_history (l : Line) :
  recent_fits l <> [] ->
  recent_fits (snd (reject_line l)) = removelast (recent_fits l) /\
  recent_xfitted (snd (reject_line l)) = removelast (recent_xfitted l) /\
  detected (snd (reject_line l)) = false.
Proof.
  intros Hne. unfold reject_line. run_monad.
  rewrite (deque_pop_cons _ Hne). cbn.
  destruct (recent_xfitted l) as [|c cs] eqn:Ex; cbn.
  - repeat split; reflexivity.
  - destruct (removelast (recent_fits l)) as [|f fs] eqn:Ef; cbn.
    + repeat split; reflexivity.
    + destruct (average_rows (lastn n_avg (removelast (c :: cs)))); cbn;
        repeat split; reflexivity.
Qed.

Lemma reject_line_ok (l : Line) (bx' : list Q) :
  recent_xfitted l <> [] ->
  removelast (recent_fits l) <> [] ->
  average_rows (lastn n_avg (removelast (recent_xfitted l))) = inr bx' ->
  reject_line l =
  (inr tt,
   let avg := average_fits (lastn n_avg (removelast (recent_fits l))) in
   mkLine false (removelast (recent_xfitted l)) (Some bx')
          (removelast (recent_fits l)) (Some avg) (Some avg)
          (line_base_pos l) (diffs l) (allx l) (ally l)).
Proof.
  intros Hx Hf Havg. unfold reject_line. run_monad.
  assert (Hne : recent_fits l <> []).
  { intros E. apply Hf. rewrite E. reflexivity. }
  rewrite (deque_pop_cons _ Hne), (deque_pop_cons _ Hx). cbn.
  destruct (removelast (recent_fits l)) as [|f fs] eqn:Ef; [congruence|].
  cbn. rewrite Havg. reflexivity.
Qed.

Lemma reject_line_last (l : Line) :
  recent_xfitted l <> [] ->
  recent_fits l <> [] ->
  removelast (recent_fits l) = [] ->
  reject_line l =
  (inr tt,
   mkLine false (removelast (recent_xfitted l)) (bestx l) [] (best_fit l)
          (current_fit l) (line_base_pos l) (diffs l) (allx l) (ally l)).
Proof.
  intros Hx Hne Hf. unfold reject_line. run_monad.
  rewrite (deque_pop_cons _ Hne), (deque_pop_cons _ Hx). cbn.
  rewrite Hf. reflexivity.
Qed.

Lemma accept_line_ok (fit : poly) (fitx : list Q) (l : Line) (bx' : list Q) :
  average_rows (deque_append n (recent_xfitted l) fitx) = inr bx' ->
  accept_line fit fitx l =
  (inr tt,
   mkLine true (deque_append n (recent_xfitted l) fitx) (Some bx')
          (deque_append n (recent_fits l) fit)
          (Some (average_fits (deque_append n (recent_fits l) fit))) (Some fit)
          (line_base_pos l) (diffs l) (allx l) (ally l)).
Proof.
  intros Havg. unfold accept_line. run_monad. rewrite Havg. reflexivity.
Qed.

Lemma update_line_seed (ploty : list Q) (ybase : Q) (fit : poly) (fitx : list Q)
    (xs ys : list Z) (l : Line) :
  recent_fits l = [] ->
  update_line ploty ybase fit fitx xs ys l = seed_line fit fitx l.
Proof.
  intros E. unfold update_line. unfold bind at 1, get. rewrite E. reflexivity.
Qed.

Lemma update_line_tracking (ploty : list Q) (ybase : Q) (fit : poly)
    (fitx : list Q) (xs ys : list Z) (l : Line) (bx d : list Q) :
  recent_fits l <> [] ->
  bestx l = Some bx ->
  vsub fitx bx = inr d ->
  update_line ploty ybase fit fitx xs ys l =
  let base_pos := validation_base_pos fit ybase in
  let l1 := set_diffs d (set_line_base_pos (Some base_pos) l) in
  after_choice ploty xs ys
    ((if accept_test base_pos d bx then accept_line fit fitx else reject_line) l1).
Proof.
  intros Hne Hbx Hd. unfold update_line, after_choice.
  unfold bind at 1, get.
  destruct (recent_fits l) as [|f fs] eqn:Ef; [congruence|].
  cbn [length Nat.eqb].
  run_monad. rewrite Hbx. cbn. rewrite Hd. cbn.
  match goal with
  | |- (let (_, _) := ?c in _) = _ => destruct c as [[e|[]] l2]
  end; [reflexivity|].
  destruct (best_fit l2); reflexivity.
Qed.

Lemma after_choice_fields (ploty : list Q) (xs ys : list Z)
    (c : (exn + unit) * Line) :
  let l' := snd (after_choice ploty xs ys c) in
  detected l' = detected (snd c) /\
  recent_xfitted l' = recent_xfitted (snd c) /\
  bestx l' = bestx (snd c) /\
  recent_fits l' = recent_fits (snd c) /\
  best_fit l' = best_fit (snd c) /\
  current_fit l' = current_fit (snd c).
Proof.
  destruct c as [[e|[]] l]; cbn.
  - repeat split; reflexivity.
  - destruct (best_fit l) eqn:E; cbn; rewrite ?E; repeat split; reflexivity.
Qed.

(** ** The relative difference, as a quotient of norms

    [rel_diff_lt] compares squares. Over the reals it is the test the code
    writes, [norm(d)/norm(bx) < t], whenever [norm(bx)] is not zero; when
    it is zero numpy's quotient is inf or nan and the comparison is false,
    as [rel_diff_lt] is. *)

Lemma Qsum_nonneg (l : list Q) : Forall (fun x => 0 <= x) l -> 0 <= Qsum l.
Proof.
  induction 1 as [|x l Hx _ IH]; cbn.
  - apply Qle_refl.
  - replace 0 with (0 + 0) by reflexivity. apply Qplus_le_compat; assumption.
Qed.

Lemma sumsq_nonneg (v : list Q) : 0 <= sumsq v.
Proof.
  unfold sumsq. apply Qsum_nonneg. apply Forall_forall. intros y Hin.
  apply in_map_iff in Hin. destruct Hin as (x & <- & _).
  destruct (Qlt_le_dec x 0) as [Hneg|Hpos].
  - setoid_replace (x * x) with ((- x) * (- x)) by ring.
    apply Qmult_le_0_compat; apply (Qopp_le_compat x 0), Qlt_le_weak, Hneg.
  - apply Qmult_le_0_compat; assumption.
Qed.

Lemma rel_diff_lt_norm (d bx : list Q) (t : Q) :
  0 < t ->
  rel_diff_lt d bx t = true <->
  (0 < sqrt (Q2R (sumsq bx)) /\
   sqrt (Q2R (sumsq d)) / sqrt (Q2R (sumsq bx)) < Q2R t)%R.
Proof.
  intros Ht.
  pose proof (Qle_Rle _ _ (sumsq_nonneg d)) as HD.
  pose proof (Qle_Rle _ _ (sumsq_nonneg bx)) as HB.
  pose proof (Qlt_Rlt _ _ Ht) as HT.
  replace (Q2R 0) with 0%R in * by (unfold Q2R; cbn; lra).
  unfold rel_diff_lt, Qlt_bool.
  rewrite negb_true_iff.
  assert (Hsq : Q2R (t ^ 2 * sumsq bx) = (Q2R t * Q2R t * Q2R (sumsq bx))%R).
  { rewrite Q2R_mult. f_equal. rewrite <- Q2R_mult. apply Qeq_eqR. cbn. reflexivity. }
  set (D := Q2R (sumsq d)) in *. set (B := Q2R (sumsq bx)) in *. set (T := Q2R t) in *.
  split.
  - intros Hlt.
    assert (HltR : (D < T * T * B)%R).
    { rewrite <- Hsq. apply Qlt_Rlt. apply Qnot_le_lt. intros C.
      apply Qle_bool_iff in C. congruence. }
    assert (HBpos : (0 < B)%R) by nra.
    pose proof (sqrt_lt_R0 B HBpos) as HsB.
    split; [exact HsB|].
    apply (Rmult_lt_reg_r (sqrt B)); [exact HsB|].
    unfold Rdiv. rewrite Rmult_assoc, Rinv_l by lra. rewrite Rmult_1_r.
    replace (T * sqrt B)%R with (sqrt (T * T * B)).
    + apply sqrt_lt_1; nra.
    + rewrite sqrt_mult by nra. rewrite sqrt_square by lra. reflexivity.
  - intros [HsB Hq].
    assert (HBpos : (0 < B)%R).
    { destruct (Rle_lt_or_eq_dec 0 B HB) as [|E]; [assumption|].
      rewrite <- E, sqrt_0 in HsB. lra. }
    assert (Hlt : (sqrt D < T * sqrt B)%R).
    { apply (Rmult_lt_compat_r (sqrt B)) in Hq; [|exact HsB].
      unfold Rdiv in Hq. rewrite Rmult_assoc, Rinv_l, Rmult_1_r in Hq by lra. exact Hq. }
    assert (HltR : (D < T * T * B)%R).
    { rewrite <- (sqrt_sqrt D HD), <- (sqrt_sqrt B HB) at 1.
      pose proof (sqrt_pos D). nra. }
    destruct (Qle_bool (t ^ 2 * sumsq bx) (sumsq d)) eqn:E; [|reflexivity].
    apply Qle_bool_iff, Qle_Rle in E. rewrite Hsq in E. fold D in E. lra.
Qed.

(** ** The empty history *)

(** C3. A lane whose history is empty accepts whatever fit it is given:
    the fit and its curve become the only history entries, [best_fit],
    [bestx] and [current_fit] are the new fit and curve, and [detected]
    is set. No threshold is consulted. *)
Theorem empty_history_accepts (ploty : list Q) (ybase : Q) (fit : poly)
    (fitx : list Q) (xs ys : list Z) (l : Line) :
  recent_fits l = [] ->
  recent_xfitted l = [] ->
  let '(r, l') := update_line ploty ybase fit fitx xs ys l in
  r = inr (fit, fitx) /\
  recent_fits l' = [fit] /\
  recent_xfitted l' = [fitx] /\
  best_fit l' = Some fit /\
  bestx l' = Some fitx /\
  current_fit l' = Some fit /\
  detected l' = true.
Proof.
  intros Hf Hx.
  rewrite (update_line_seed _ _ _ _ _ _ _ Hf), seed_line_run.
  rewrite Hf, Hx. repeat split; reflexivity.
Qed.

(** A first fit 5.9 m off the image centre, beyond [max_distance], is
    accepted by the fresh lane. *)
Lemma empty_history_accepts_witness :
  max_distance < Qabs (validation_base_pos (vertical 1600) 719) /\
  let '(r, l') :=
    update_line (linspace 3) 719 (vertical 1600) (sample 3 (vertical 1600)) [] []
                Line_init in
  r = inr (vertical 1600, sample 3 (vertical 1600)) /\
  recent_fits l' = [vertical 1600] /\
  recent_xfitted l' = [sample 3 (vertical 1600)] /\
  best_fit l' = Some (vertical 1600) /\
  bestx l' = Some (sample 3 (vertical 1600)) /\
  current_fit l' = Some (vertical 1600) /\
  detected l' = true.
Proof.
  split.
  - vm_compute. reflexivity.
  - apply (empty_history_accepts (linspace 3) 719 (vertical 1600)
             (sample 3 (vertical 1600)) [] [] Line_init);
      reflexivity.
Defined.

(** ** Rejected fits *)

(** The lane after an update that took the reject branch, in terms of the
    branch run on the lane with [line_base_pos] and [diffs] stored. *)
Lemma update_line_rejecting (ploty : list Q) (ybase : Q) (fit : poly)
    (fitx : list Q) (xs ys : list Z) (l : Line) (bx d : list Q) :
  recent_fits l <> [] ->
  bestx l = Some bx ->
  vsub fitx bx = inr d ->
  accept_test (validation_base_pos fit ybase) d bx = false ->
  update_line ploty ybase fit fitx xs ys l =
  after_choice ploty xs ys
    (reject_line
       (set_diffs d (set_line_base_pos (Some (validation_base_pos fit ybase)) l))).
Proof.
  intros Hne Hbx Hd Hacc.
  rewrite (update_line_tracking ploty ybase fit fitx xs ys l bx d Hne Hbx Hd).
  cbv zeta. rewrite Hacc. reflexivity.
Qed.

(** C1, as the code has it. A tracking-state update whose fit fails the
    acceptance test does not add the new sample, and it removes the newest
    entry of the history: both deques lose their last element, so the
    history is one entry shorter; [detected] is cleared. *)
Theorem reject_drops_newest_entry (ploty : list Q) (ybase : Q) (fit : poly)
    (fitx : list Q) (xs ys : list Z) (l : Line) (bx d : list Q) :
  recent_fits l <> [] ->
  bestx l = Some bx ->
  vsub fitx bx = inr d ->
  accept_test (validation_base_pos fit ybase) d bx = false ->
  let l' := snd (update_line ploty ybase fit fitx xs ys l) in
  recent_fits l' = removelast (recent_fits l) /\
  recent_xfitted l' = removelast (recent_xfitted l) /\
  S (length (recent_fits l')) = length (recent_fits l) /\
  detected l' = false.
Proof.
  intros Hne Hbx Hd Hacc. cbv zeta.
  rewrite (update_line_rejecting ploty ybase fit fitx xs ys l bx d Hne Hbx Hd Hacc).
  pose proof (after_choice_fields ploty xs ys
    (reject_line (set_diffs d
       (set_line_base_pos (Some (validation_base_pos fit ybase)) l)))) as Hfr.
  cbv zeta in Hfr. destruct Hfr as (Hdet & Hxf & _ & Hfits & _ & _).
  rewrite Hdet, Hxf, Hfits.
  destruct (reject_line_history
    (set_diffs d (set_line_base_pos (Some (validation_base_pos fit ybase)) l)))
    as (Rf & Rx & Rd); [exact Hne|].
  rewrite Rf, Rx, Rd. cbn [recent_fits recent_xfitted set_diffs set_line_base_pos].
  repeat split.
  destruct (recent_fits l) as [|f fs] using rev_ind; [congruence|].
  rewrite removelast_last, length_app. cbn. lia.
Qed.

(** A lane holding the fits x = 700 and x = 710 rejects x = 1200 and is
    left with x = 700 alone. *)
Lemma reject_drops_newest_entry_witness :
  let l := feed 3 2 [vertical 700; vertical 710] Line_init in
  let l' := snd (update_line (linspace 3) 2 (vertical 1200)
                             (sample 3 (vertical 1200)) [] [] l) in
  recent_fits l' = removelast (recent_fits l) /\
  recent_xfitted l' = removelast (recent_xfitted l) /\
  S (length (recent_fits l')) = length (recent_fits l) /\
  detected l' = false.
Proof.
  cbv zeta.
  eapply (reject_drops_newest_entry (linspace 3) 2 (vertical 1200)
            (sample 3 (vertical 1200)) [] []
            (feed 3 2 [vertical 700; vertical 710] Line_init)).
  - vm_compute. discriminate.
  - vm_compute. reflexivity.
  - vm_compute. reflexivity.
  - vm_compute. reflexivity.
Defined.

(** C1 as stated fails: the same rejected update takes the history from
    two entries to one. *)
Lemma reject_changes_history :
  let l := feed 3 2 [vertical 700; vertical 710] Line_init in
  let l' := snd (update_line (linspace 3) 2 (vertical 1200)
                             (sample 3 (vertical 1200)) [] [] l) in
  recent_fits l = [vertical 700; vertical 710] /\
  max_distance < Qabs (validation_base_pos (vertical 1200) 2) /\
  detected l' = false /\
  recent_fits l' = [vertical 700] /\
  length (recent_fits l') <> length (recent_fits l) /\
  length (recent_xfitted l') <> length (recent_xfitted l).
Proof.
  cbv zeta. repeat split; try (vm_compute; reflexivity); vm_compute; discriminate.
Qed.

(** The lane after a rejected update that found a single entry. *)
Lemma update_line_reject_last (ploty : list Q) (ybase : Q) (fit : poly)
    (fitx : list Q) (xs ys : list Z) (l : Line) (f : poly) (c bx d : list Q) :
  recent_fits l = [f] ->
  recent_xfitted l = [c] ->
  bestx l = Some bx ->
  vsub fitx bx = inr d ->
  accept_test (validation_base_pos fit ybase) d bx = false ->
  snd (update_line ploty ybase fit fitx xs ys l) =
  mkLine false [] (bestx l) [] (best_fit l) (current_fit l)
         (Some (validation_base_pos fit ybase)) d (Some xs) (Some ys).
Proof.
  intros Hf Hx Hbx Hd Hacc.
  assert (Hne : recent_fits l <> []) by (rewrite Hf; discriminate).
  rewrite (update_line_rejecting ploty ybase fit fitx xs ys l bx d Hne Hbx Hd Hacc).
  rewrite reject_line_last;
    cbn [recent_fits recent_xfitted set_diffs set_line_base_pos];
    rewrite ?Hf, ?Hx; try discriminate; try reflexivity.
  unfold after_choice. cbn [best_fit set_diffs set_line_base_pos].
  destruct (best_fit l); reflexivity.
Qed.

(** C10. When the rejected update finds exactly one entry in the history,
    that entry is removed and the history is empty, while [best_fit],
    [bestx] and [current_fit] keep their values; whatever fit the next
    update brings is then taken in by the empty-history branch, with no
    threshold consulted. *)
Theorem reject_single_entry_then_reseed (ploty : list Q) (ybase : Q) (fit : poly)
    (fitx : list Q) (xs ys : list Z) (l : Line) (f : poly) (c bx d : list Q) :
  recent_fits l = [f] ->
  recent_xfitted l = [c] ->
  bestx l = Some bx ->
  vsub fitx bx = inr d ->
  accept_test (validation_base_pos fit ybase) d bx = false ->
  let l' := snd (update_line ploty ybase fit fitx xs ys l) in
  (recent_fits l' = [] /\
   recent_xfitted l' = [] /\
   best_fit l' = best_fit l /\
   bestx l' = bestx l /\
   current_fit l' = current_fit l /\
   detected l' = false) /\
  forall (ploty2 : list Q) (ybase2 : Q) (fit2 : poly) (fitx2 : list Q)
         (xs2 ys2 : list Z),
    let '(r2, l2) := update_line ploty2 ybase2 fit2 fitx2 xs2 ys2 l' in
    r2 = inr (fit2, fitx2) /\
    recent_fits l2 = [fit2] /\
    recent_xfitted l2 = [fitx2] /\
    best_fit l2 = Some fit2 /\
    bestx l2 = Some fitx2 /\
    current_fit l2 = Some fit2 /\
    detected l2 = true.
Proof.
  intros Hf Hx Hbx Hd Hacc. cbv zeta.
  rewrite (update_line_reject_last ploty ybase fit fitx xs ys l f c bx d
             Hf Hx Hbx Hd Hacc).
  split.
  - cbn. repeat split; reflexivity.
  - intros ploty2 ybase2 fit2 fitx2 xs2 ys2.
    rewrite update_line_seed by reflexivity.
    rewrite seed_line_run. cbn. repeat split; reflexivity.
Qed.

(** A lane that holds only x = 700 rejects x = 1200, keeps x = 700 as its
    estimate over an empty history, and is seeded afresh by x = 1200 on
    the next frame. *)
Lemma reject_single_entry_then_reseed_witness :
  let l := feed 3 2 [vertical 700] Line_init in
  let l' := snd (update_line (linspace 3) 2 (vertical 1200)
                             (sample 3 (vertical 1200)) [] [] l) in
  (recent_fits l' = [] /\
   recent_xfitted l' = [] /\
   best_fit l' = best_fit l /\
   bestx l' = bestx l /\
   current_fit l' = current_fit l /\
   detected l' = false) /\
  forall (ploty2 : list Q) (ybase2 : Q) (fit2 : poly) (fitx2 : list Q)
         (xs2 ys2 : list Z),
    let '(r2, l2) := update_line ploty2 ybase2 fit2 fitx2 xs2 ys2 l' in
    r2 = inr (fit2, fitx2) /\
    recent_fits l2 = [fit2] /\
    recent_xfitted l2 = [fitx2] /\
    best_fit l2 = Some fit2 /\
    bestx l2 = Some fitx2 /\
    current_fit l2 = Some fit2 /\
    detected l2 = true.
Proof.
  cbv zeta.
  eapply (reject_single_entry_then_reseed (linspace 3) 2 (vertical 1200)
            (sample 3 (vertical 1200)) [] []
            (feed 3 2 [vertical 700] Line_init)).
  - vm_compute. reflexivity.
  - vm_compute. reflexivity.
  - vm_compute. reflexivity.
  - vm_compute. reflexivity.
  - vm_compute. reflexivity.
Defined.

(** ** Column means of well-formed histories *)

Lemma average_rows_ok (H : nat) (rows : list (list Q)) :
  rows <> [] ->
  Forall (fun c => length c = H) rows ->
  average_rows rows = inr (map (fun j => mean (column j rows)) (seq 0 H)).
Proof.
  intros Hne Hall. unfold average_rows.
  destruct rows as [|r rs]; [congruence|].
  inversion Hall as [|? ? Hr Hrs]; subst.
  replace (forallb (fun r' => (length r' =? length r)%nat) rs) with true.
  - reflexivity.
  - symmetry. apply forallb_forall. intros r' Hin.
    rewrite Forall_forall in Hrs. rewrite (Hrs r' Hin). apply Nat.eqb_refl.
Qed.

Lemma Forall_removelast {A : Type} (P : A -> Prop) (l : list A) :
  Forall P l -> Forall P (removelast l).
Proof.
  intros Hall. rewrite Forall_forall in *. intros x Hin.
  destruct l as [|a l'] using rev_ind; [contradiction|].
  rewrite removelast_last in Hin. apply Hall, in_or_app. left. exact Hin.
Qed.

Lemma Forall_lastn {A : Type} (P : A -> Prop) (k : nat) (l : list A) :
  Forall P l -> Forall P (lastn k l).
Proof.
  intros Hall. unfold lastn. rewrite <- (firstn_skipn (length l - k) l) in Hall.
  apply Forall_app in Hall. apply Hall.
Qed.

Lemma length_lastn {A : Type} (k : nat) (l : list A) :
  length (lastn k l) = Nat.min k (length l).
Proof. unfold lastn. rewrite length_skipn. lia. Qed.

Lemma length_removelast {A : Type} (l : list A) :
  length (removelast l) = (length l - 1)%nat.
Proof.
  destruct l as [|a l'] using rev_ind; [reflexivity|].
  rewrite removelast_last, length_app. cbn. lia.
Qed.

Lemma nonempty_length {A : Type} (l : list A) : l <> [] <-> (0 < length l)%nat.
Proof. destruct l; cbn; split; intros; try congruence; try lia. Qed.

(** C2, as the code has it. A rejected update that finds two entries or
    more in the history first removes the newest one, then sets [best_fit]
    and [bestx] to the arithmetic mean over the last [n_avg = 8] of the
    entries that remain (all of them when fewer remain), and [current_fit]
    to that [best_fit]. Neither the rejected fit nor the removed entry
    enters the mean. *)
Theorem reject_averages_remaining_entries (H : nat) (ploty : list Q) (ybase : Q)
    (fit : poly) (fitx : list Q) (xs ys : list Z) (l : Line) (bx d : list Q) :
  Line_wf H l ->
  (2 <= length (recent_fits l))%nat ->
  bestx l = Some bx ->
  vsub fitx bx = inr d ->
  accept_test (validation_base_pos fit ybase) d bx = false ->
  let '(r, l') := update_line ploty ybase fit fitx xs ys l in
  let kept_fits := lastn n_avg (removelast (recent_fits l)) in
  let kept_curves := lastn n_avg (removelast (recent_xfitted l)) in
  let avg := mkPoly (mean (map f0 kept_fits)) (mean (map f1 kept_fits))
                    (mean (map f2 kept_fits)) in
  length kept_fits = Nat.min 8 (length (recent_fits l) - 1) /\
  length kept_curves = Nat.min 8 (length (recent_fits l) - 1) /\
  best_fit l' = Some avg /\
  bestx l' = Some (map (fun j => mean (column j kept_curves)) (seq 0 H)) /\
  current_fit l' = Some avg /\
  r = inr (avg, map (polyval avg) ploty).
Proof.
  intros (Hlen & Hall & _) Htwo Hbx Hd Hacc.
  assert (Hne : recent_fits l <> []) by (apply nonempty_length; lia).
  rewrite (update_line_rejecting ploty ybase fit fitx xs ys l bx d Hne Hbx Hd Hacc).
  set (l1 := set_diffs d (set_line_base_pos (Some (validation_base_pos fit ybase)) l)).
  assert (Hkept : lastn n_avg (removelast (recent_xfitted l)) <> []).
  { apply nonempty_length. rewrite length_lastn, length_removelast, Hlen.
    unfold n_avg. lia. }
  rewrite (reject_line_ok l1
             (map (fun j => mean (column j (lastn n_avg (removelast (recent_xfitted l)))))
                  (seq 0 H))).
  - cbn. rewrite !length_lastn, !length_removelast, Hlen.
    repeat split; reflexivity.
  - cbn. apply nonempty_length. lia.
  - cbn. apply nonempty_length. rewrite length_removelast. lia.
  - cbn. apply average_rows_ok; [exact Hkept|].
    apply Forall_lastn, Forall_removelast, Hall.
Qed.

(** ** The deque *)

Lemma length_deque_append {A : Type} (maxlen : nat) (d : list A) (x : A) :
  length (deque_append maxlen d x) =
  if (maxlen <? S (length d))%nat then length d else S (length d).
Proof.
  unfold deque_append. rewrite length_app. cbn [length].
  replace (length d + 1)%nat with (S (length d)) by lia.
  destruct (maxlen <? S (length d))%nat.
  - destruct d; reflexivity || (cbn; rewrite length_app; cbn; lia).
  - rewrite length_app. cbn. lia.
Qed.

Lemma deque_append_bounded {A : Type} (maxlen : nat) (d : list A) (x : A) :
  (length d <= maxlen)%nat -> (length (deque_append maxlen d x) <= maxlen)%nat.
Proof.
  intros Hle. rewrite length_deque_append.
  destruct (Nat.ltb_spec maxlen (S (length d))); lia.
Qed.

(** Below capacity the new entry is added at the right end; at capacity
    the leftmost entry goes. *)
Lemma deque_append_room {A : Type} (maxlen : nat) (d : list A) (x : A) :
  (length d < maxlen)%nat -> deque_append maxlen d x = d ++ [x].
Proof.
  intros Hlt. unfold deque_append. rewrite length_app. cbn [length].
  destruct (Nat.ltb_spec maxlen (length d + 1)); [lia | reflexivity].
Qed.

Lemma deque_append_full {A : Type} (maxlen : nat) (d : list A) (x : A) :
  length d = maxlen -> (0 < maxlen)%nat -> deque_append maxlen d x = tl d ++ [x].
Proof.
  intros Hlen Hpos. unfold deque_append. rewrite length_app. cbn [length].
  destruct (Nat.ltb_spec maxlen (length d + 1)); [|lia].
  destruct d; [cbn in Hlen; lia | reflexivity].
Qed.

Lemma Forall_deque_append {A : Type} (P : A -> Prop) (maxlen : nat) (d : list A)
    (x : A) :
  Forall P d -> P x -> Forall P (deque_append maxlen d x).
Proof.
  intros Hd Hx. unfold deque_append.
  assert (Hall : Forall P (d ++ [x])) by (apply Forall_app; split; auto).
  destruct (maxlen <? length (d ++ [x]))%nat; [|exact Hall].
  destruct (d ++ [x]); [constructor | inversion Hall; assumption].
Qed.

Lemma vsub_same_length (u v : list Q) :
  length u = length v -> vsub u v = inr (map2 Qminus u v).
Proof. intros E. unfold vsub. rewrite E, Nat.eqb_refl. reflexivity. Qed.

(** ** The invariant of a session *)

(** On a well-formed lane an update with a curve of the frame's height
    raises nothing and leaves the lane well-formed. *)
Lemma update_line_wf (H : nat) (ploty : list Q) (ybase : Q) (fit : poly)
    (fitx : list Q) (xs ys : list Z) (l : Line) :
  Line_wf H l ->
  length fitx = H ->
  Line_wf H (snd (update_line ploty ybase fit fitx xs ys l)) /\
  exists v, fst (update_line ploty ybase fit fitx xs ys l) = inr v.
Proof.
  intros (Hlen & Hall & Hbest) Hfx.
  destruct (recent_fits l) as [|f fs] eqn:Ef.
  - rewrite (update_line_seed _ _ _ _ _ _ _ Ef), seed_line_run. cbn [fst snd].
    split; [|eexists; reflexivity].
    unfold Line_wf. cbn [recent_xfitted recent_fits bestx best_fit].
    rewrite !length_deque_append, Hlen, Ef. cbn [length].
    split; [reflexivity|]. split.
    + apply Forall_deque_append; assumption.
    + intros _. exists fitx, fit. auto.
  - assert (Hne : recent_fits l <> []) by (rewrite Ef; discriminate).
    rewrite <- Ef in *. clear Ef f fs.
    destruct (Hbest Hne) as (bx & bf & Hbx & Hbxlen & Hbf).
    assert (Hd : vsub fitx bx = inr (map2 Qminus fitx bx)).
    { apply vsub_same_length. congruence. }
    rewrite (update_line_tracking ploty ybase fit fitx xs ys l bx _ Hne Hbx Hd).
    cbv zeta.
    set (l1 := set_diffs _ _).
    destruct (accept_test (validation_base_pos fit ybase) (map2 Qminus fitx bx) bx).
    + rewrite (accept_line_ok fit fitx l1
        (map (fun j => mean (column j (deque_append n (recent_xfitted l) fitx)))
             (seq 0 H))).
      * cbn. split; [|eexists; reflexivity].
        unfold Line_wf. cbn. rewrite !length_deque_append, Hlen.
        split; [reflexivity|]. split.
        -- apply Forall_deque_append; assumption.
        -- intros _. eexists; eexists. split; [reflexivity|].
           split; [|reflexivity]. rewrite length_map, length_seq. reflexivity.
      * cbn. apply average_rows_ok.
        -- apply nonempty_length. rewrite length_deque_append. unfold n.
           destruct (15 <? S (length (recent_xfitted l)))%nat eqn:E; [|lia].
           apply Nat.ltb_lt in E. lia.
        -- apply Forall_deque_append; assumption.
    + destruct (removelast (recent_fits l)) as [|g gs] eqn:Eg.
      * rewrite reject_line_last; cbn; trivial.
        -- rewrite Hbf. cbn. split; [|eexists; reflexivity].
           unfold Line_wf. cbn. split.
           ++ rewrite length_removelast, Hlen.
              rewrite <- (length_removelast (recent_fits l)), Eg. reflexivity.
           ++ split; [apply Forall_removelast, Hall | intros C; congruence].
        -- apply nonempty_length. rewrite Hlen. apply nonempty_length, Hne.
      * assert (Hrf : removelast (recent_fits l) <> []) by (rewrite Eg; discriminate).
        assert (Hcnt : (2 <= length (recent_fits l))%nat).
        { apply nonempty_length in Hrf. rewrite length_removelast in Hrf. lia. }
        rewrite (reject_line_ok l1
          (map (fun j => mean (column j (lastn n_avg (removelast (recent_xfitted l)))))
               (seq 0 H))).
        -- cbn. split; [|eexists; reflexivity].
           unfold Line_wf. cbn. rewrite !length_removelast, Hlen.
           split; [reflexivity|]. split; [apply Forall_removelast, Hall|].
           intros _. eexists; eexists. split; [reflexivity|].
           split; [|reflexivity]. rewrite length_map, length_seq. reflexivity.
        -- cbn. apply nonempty_length. lia.
        -- cbn. exact Hrf.
        -- cbn. apply average_rows_ok.
           ++ apply nonempty_length.
              rewrite length_lastn, length_removelast, Hlen. unfold n_avg. lia.
           ++ apply Forall_lastn, Forall_removelast, Hall.
Qed.

Lemma Line_init_wf (H : nat) : Line_wf H Line_init.
Proof.
  unfold Line_wf, Line_init. cbn.
  split; [reflexivity|]. split; [constructor | intros C; congruence].
Qed.

Lemma length_linspace (H : nat) : length (linspace H) = H.
Proof. unfold linspace. rewrite length_map, length_seq. reflexivity. Qed.

Lemma length_sample (H : nat) (fit : poly) : length (sample H fit) = H.
Proof. unfold sample. rewrite length_map. apply length_linspace. Qed.

Lemma feed_wf (H : nat) (ybase : Q) (fits : list poly) (l : Line) :
  Line_wf H l -> Line_wf H (feed H ybase fits l).
Proof.
  unfold feed. revert l.
  induction fits as [|fit fits IH]; intros l Hwf; cbn [fold_left]; [exact Hwf|].
  apply IH.
  apply (update_line_wf H (linspace H) ybase fit (sample H fit) [] [] l Hwf).
  apply length_sample.
Qed.

(** A lane holding x = 700, x = 710 and x = 704 rejects x = 1200: the
    entry x = 704 goes, and the estimates are the mean of x = 700 and
    x = 710. *)
Lemma reject_averages_remaining_entries_witness :
  let l := feed 3 2 [vertical 700; vertical 710; vertical 704] Line_init in
  let '(r, l') := update_line (linspace 3) 2 (vertical 1200)
                              (sample 3 (vertical 1200)) [] [] l in
  let kept_fits := lastn n_avg (removelast (recent_fits l)) in
  let kept_curves := lastn n_avg (removelast (recent_xfitted l)) in
  let avg := mkPoly (mean (map f0 kept_fits)) (mean (map f1 kept_fits))
                    (mean (map f2 kept_fits)) in
  length kept_fits = Nat.min 8 (length (recent_fits l) - 1) /\
  length kept_curves = Nat.min 8 (length (recent_fits l) - 1) /\
  best_fit l' = Some avg /\
  bestx l' = Some (map (fun j => mean (column j kept_curves)) (seq 0 3)) /\
  current_fit l' = Some avg /\
  r = inr (avg, map (polyval avg) (linspace 3)).
Proof.
  cbv zeta.
  eapply (reject_averages_remaining_entries 3 (linspace 3) 2 (vertical 1200)
            (sample 3 (vertical 1200)) [] []
            (feed 3 2 [vertical 700; vertical 710; vertical 704] Line_init)).
  - apply feed_wf, Line_init_wf.
  - vm_compute. lia.
  - vm_compute. reflexivity.
  - vm_compute. reflexivity.
  - vm_compute. reflexivity.
Defined.

(** C2 as stated fails: the history stood at x = 700, x = 710 before the
    rejected update, whose mean is x = 705, and [best_fit] becomes
    x = 700. *)
Lemma reject_mean_leaves_out_newest_entry :
  let l := feed 3 2 [vertical 700; vertical 710] Line_init in
  let l' := snd (update_line (linspace 3) 2 (vertical 1200)
                             (sample 3 (vertical 1200)) [] [] l) in
  let stated := average_fits (lastn n_avg (recent_fits l)) in
  recent_fits l = [vertical 700; vertical 710] /\
  detected l' = false /\
  f2 stated == 705 /\
  (exists bf, best_fit l' = Some bf /\ current_fit l' = Some bf /\
              f2 bf == 700 /\ ~ f2 bf == f2 stated).
Proof.
  cbv zeta. split; [vm_compute; reflexivity|].
  split; [vm_compute; reflexivity|].
  split; [vm_compute; reflexivity|].
  eexists. split; [vm_compute; reflexivity|].
  split; [vm_compute; reflexivity|].
  split; [vm_compute; reflexivity|].
  vm_compute. discriminate.
Qed.

(** ** The bound on the history *)

Lemma removelast_bounded {A : Type} (d : list A) (m : nat) :
  (length d <= m)%nat -> (length (removelast d) <= m)%nat.
Proof. rewrite length_removelast. lia. Qed.

(** Whatever the update does, and whether or not it raises, both deques
    stay within [n] entries. *)
Lemma update_line_bounded (ploty : list Q) (ybase : Q) (fit : poly)
    (fitx : list Q) (xs ys : list Z) (l : Line) :
  bounded l -> bounded (snd (update_line ploty ybase fit fitx xs ys l)).
Proof.
  intros [Hf Hx]. unfold bounded.
  pose proof (deque_append_bounded n (recent_fits l) fit Hf) as Haf.
  pose proof (deque_append_bounded n (recent_xfitted l) fitx Hx) as Hax.
  pose proof (removelast_bounded (recent_fits l) n Hf) as Hrf.
  pose proof (removelast_bounded (recent_xfitted l) n Hx) as Hrx.
  unfold update_line, seed_line, accept_line, reject_line, deque_pop, bind, get,
    modify, lift, unwrap, ret, raise.
  unfold_setters.
  destruct (length (recent_fits l) =? 0)%nat; cbn; [split; assumption|].
  destruct (bestx l) as [bx|]; cbn; [|split; assumption].
  destruct (vsub fitx bx) as [e|d]; cbn; [split; assumption|].
  destruct (accept_test (validation_base_pos fit ybase) d bx); cbn.
  - destruct (average_rows (deque_append n (recent_xfitted l) fitx)); cbn;
      [split; assumption|].
    split; assumption.
  - destruct (recent_fits l) as [|f fs] eqn:Ef; cbn; [split; assumption|].
    destruct (recent_xfitted l) as [|c cs] eqn:Ex; cbn; [split; assumption|].
    destruct (length (removelast (f :: fs))); cbn.
    + destruct (best_fit l); cbn; split;
        try assumption; apply removelast_bounded; assumption.
    + destruct (average_rows (lastn n_avg (removelast (c :: cs)))); cbn;
        split; try assumption; apply removelast_bounded; assumption.
Qed.

(** ** The four ways through an update *)

Lemma update_line_cases (ploty : list Q) (ybase : Q) (fit : poly) (fitx : list Q)
    (xs ys : list Z) (l : Line) :
  let base_pos := validation_base_pos fit ybase in
  let u := update_line ploty ybase fit fitx xs ys l in
  (recent_fits l = [] /\ u = seed_line fit fitx l) \/
  (recent_fits l <> [] /\ bestx l = None /\
   u = (inl TypeError, set_line_base_pos (Some base_pos) l)) \/
  (exists bx e, recent_fits l <> [] /\ bestx l = Some bx /\ vsub fitx bx = inl e /\
                u = (inl e, set_line_base_pos (Some base_pos) l)) \/
  (exists bx d, recent_fits l <> [] /\ bestx l = Some bx /\ vsub fitx bx = inr d /\
                u = after_choice ploty xs ys
                      ((if accept_test base_pos d bx then accept_line fit fitx
                        else reject_line)
                         (set_diffs d (set_line_base_pos (Some base_pos) l)))).
Proof.
  cbv zeta.
  destruct (recent_fits l) as [|f fs] eqn:Ef.
  - left. split; [reflexivity|]. apply update_line_seed, Ef.
  - right.
    assert (Hne : recent_fits l <> []) by (rewrite Ef; discriminate).
    rewrite <- Ef.
    destruct (bestx l) as [bx|] eqn:Hbx.
    + right. destruct (vsub fitx bx) as [e|d] eqn:Hd.
      * left. exists bx, e. repeat split; trivial.
        unfold update_line, bind, get. rewrite Ef. cbn [length Nat.eqb].
        unfold modify, unwrap. rewrite Hbx. unfold ret, lift. cbn.
        rewrite Hd. reflexivity.
      * right. exists bx, d. repeat split; trivial.
        apply (update_line_tracking ploty ybase fit fitx xs ys l bx d Hne Hbx Hd).
    + left. repeat split; trivial.
      unfold update_line, bind, get. rewrite Ef. cbn [length Nat.eqb].
      unfold modify, unwrap. rewrite Hbx. reflexivity.
Qed.

(** When an update returns, the locals [(fit, fitx)] it leaves are the
    lane's [best_fit] and that fit sampled over [ploty]. *)
Lemma update_line_result (ploty : list Q) (ybase : Q) (fit : poly)
    (xs ys : list Z) (l l' : Line) (fit' : poly) (fitx' : list Q) :
  update_line ploty ybase fit (map (polyval fit) ploty) xs ys l
    = (inr (fit', fitx'), l') ->
  best_fit l' = Some fit' /\ fitx' = map (polyval fit') ploty.
Proof.
  intros Hu.
  destruct (update_line_cases ploty ybase fit (map (polyval fit) ploty) xs ys l)
    as [(_ & E) | [(_ & _ & E) | [(bx & e & _ & _ & _ & E) | (bx & d & _ & _ & _ & E)]]];
    rewrite E in Hu; clear E.
  - rewrite seed_line_run in Hu. inversion Hu; subst. split; reflexivity.
  - discriminate.
  - discriminate.
  - match type of Hu with
    | after_choice _ _ _ ?c = _ => destruct c as [[e|[]] l2]
    end; cbn in Hu; [discriminate|].
    destruct (best_fit l2) as [f|] eqn:Ebf; [|discriminate].
    inversion Hu; subst. cbn. split; [exact Ebf | reflexivity].
Qed.

(** ** A frame *)

Section Frame.

Variable lstsq : list Q -> list Q -> poly.
Variable img_shape0 : nat.

(** A frame that returns went through every step. *)
Lemma find_lanes_returns_inv (binary_warped : image) (nwindows : nat) (margin : Z)
    (minpix : nat) (s s' : Lanes) (out : output) :
  find_lanes lstsq img_shape0 binary_warped nwindows margin minpix s = (inr out, s') ->
  let ploty := linspace (shape0 binary_warped) in
  exists leftx lefty rightx righty y_eval lfit lfitx ll rfit rfitx lr lx rx,
    window_search binary_warped nwindows margin minpix
      = inr (leftx, lefty, rightx, righty) /\
    leftx <> [] /\ rightx <> [] /\
    amax ploty = inr y_eval /\
    update_right ploty y_eval (lstsq (to_float righty) (to_float rightx))
      (map (polyval (lstsq (to_float righty) (to_float rightx))) ploty)
      rightx righty (right s) = (inr (rfit, rfitx), lr) /\
    update_left ploty (lstsq (to_float lefty) (to_float leftx))
      (map (polyval (lstsq (to_float lefty) (to_float leftx))) ploty)
      leftx lefty (left s) = (inr (lfit, lfitx), ll) /\
    getitem lfitx (Z.of_nat img_shape0 - 1) = inr lx /\
    getitem rfitx (Z.of_nat img_shape0 - 1) = inr rx /\
    out = mkOutput lfitx rfitx (reported_offset lx rx) /\
    s' = mkLanes (set_line_base_pos (Some (reported_offset lx rx)) ll)
                 (set_line_base_pos (Some (reported_offset lx rx)) lr).
Proof.
  cbv zeta. unfold find_lanes, bind, lift.
  destruct (window_search binary_warped nwindows margin minpix)
    as [e|[[[leftx lefty] rightx] righty]]; [discriminate|].
  unfold polyfit at 1.
  destruct (length (to_float lefty) =? 0)%nat eqn:El0; [discriminate|].
  destruct (negb (length (to_float lefty) =? length (to_float leftx))%nat) eqn:El1;
    [discriminate|].
  unfold polyfit at 1.
  destruct (length (to_float righty) =? 0)%nat eqn:Er0; [discriminate|].
  destruct (negb (length (to_float righty) =? length (to_float rightx))%nat) eqn:Er1;
    [discriminate|].
  destruct (polyfit lstsq (scale ym_per_pix lefty) (scale xm_per_pix leftx));
    [discriminate|].
  destruct (polyfit lstsq (scale ym_per_pix righty) (scale xm_per_pix rightx));
    [discriminate|].
  destruct (amax (linspace (shape0 binary_warped))) as [e|y_eval]; [discriminate|].
  unfold on_right at 1.
  destruct (update_right _ _ _ _ _ _ (right s)) as [[e|[rfit rfitx]] lr] eqn:Eur;
    [discriminate|].
  unfold on_left at 1. cbn [left right].
  destruct (update_left _ _ _ _ _ (left s)) as [[e|[lfit lfitx]] ll] eqn:Eul;
    [discriminate|].
  cbn [fst snd].
  destruct (getitem lfitx (Z.of_nat img_shape0 - 1)) as [e|lx] eqn:Elx; [discriminate|].
  destruct (getitem rfitx (Z.of_nat img_shape0 - 1)) as [e|rx] eqn:Erx; [discriminate|].
  unfold modify, ret. cbn. intros Heq. inversion Heq; subst.
  exists leftx, lefty, rightx, righty, y_eval, lfit, lfitx, ll, rfit, rfitx, lr, lx, rx.
  assert (Hnel : leftx <> []).
  { intros ->. unfold to_float in *. apply negb_false_iff, Nat.eqb_eq in El1.
    rewrite length_map in El0, El1. cbn in El1. rewrite El1 in El0. discriminate. }
  assert (Hner : rightx <> []).
  { intros ->. unfold to_float in *. apply negb_false_iff, Nat.eqb_eq in Er1.
    rewrite length_map in Er0, Er1. cbn in Er1. rewrite Er1 in Er0. discriminate. }
  repeat split; trivial.
Qed.

(** A property of a lane that updates and the offset assignment keep is
    kept by a frame, however the frame ends. *)
Lemma find_lanes_preserves (P : Line -> Prop) (binary_warped : image)
    (nwindows : nat) (margin : Z) (minpix : nat) (s : Lanes) :
  (forall ybase fit xs ys l,
      P l ->
      P (snd (update_line (linspace (shape0 binary_warped)) ybase fit
                (sample (shape0 binary_warped) fit) xs ys l))) ->
  (forall v l, P l -> P (set_line_base_pos v l)) ->
  P (left s) -> P (right s) ->
  let s' := snd (find_lanes lstsq img_shape0 binary_warped nwindows margin minpix s) in
  P (left s') /\ P (right s').
Proof.
  intros Hupd Hset Hl Hr. cbv zeta. unfold sample in Hupd.
  destruct (find_lanes lstsq img_shape0 binary_warped nwindows margin minpix s)
    as [res s'] eqn:E.
  cbn [snd]. revert E. unfold find_lanes, bind, lift.
  destruct (window_search binary_warped nwindows margin minpix)
    as [e|[[[leftx lefty] rightx] righty]]; [frame_ends|].
  destruct (polyfit lstsq (to_float lefty) (to_float leftx)) as [e|left_fit];
    [frame_ends|].
  destruct (polyfit lstsq (to_float righty) (to_float rightx)) as [e|right_fit];
    [frame_ends|].
  destruct (polyfit lstsq (scale ym_per_pix lefty) (scale xm_per_pix leftx))
    as [e|left_fit_cr]; [frame_ends|].
  destruct (polyfit lstsq (scale ym_per_pix righty) (scale xm_per_pix rightx))
    as [e|right_fit_cr]; [frame_ends|].
  destruct (amax (linspace (shape0 binary_warped))) as [e|y_eval]; [frame_ends|].
  unfold on_right at 1.
  pose proof (Hupd y_eval right_fit rightx righty (right s) Hr) as Hr'.
  unfold update_right.
  destruct (update_line _ _ _ _ _ _ (right s)) as [[e|[rfit rfitx]] lr];
    cbn [snd] in Hr'; [frame_ends|].
  unfold on_left at 1. cbn [left right].
  pose proof (Hupd 720 left_fit leftx lefty (left s) Hl) as Hl'.
  unfold update_left.
  destruct (update_line _ _ _ _ _ _ (left s)) as [[e|[lfit lfitx]] ll];
    cbn [snd] in Hl'; [frame_ends|].
  cbn [fst snd].
  destruct (getitem lfitx (Z.of_nat img_shape0 - 1)); [frame_ends|].
  destruct (getitem rfitx (Z.of_nat img_shape0 - 1)); [frame_ends|].
  unfold modify, ret. frame_ends.
Qed.

Lemma find_lanes_bounded (binary_warped : image) (nwindows : nat) (margin : Z)
    (minpix : nat) (s : Lanes) :
  bounded (left s) -> bounded (right s) ->
  let s' := snd (find_lanes lstsq img_shape0 binary_warped nwindows margin minpix s) in
  bounded (left s') /\ bounded (right s').
Proof.
  apply find_lanes_preserves.
  - intros. apply update_line_bounded. assumption.
  - intros v l Hb. exact Hb.
Qed.

Lemma run_video_bounded (frames : list image) (s : Lanes) :
  bounded (left s) -> bounded (right s) ->
  let s' := snd (run_video lstsq img_shape0 frames s) in
  bounded (left s') /\ bounded (right s').
Proof.
  revert s. induction frames as [|f frames IH]; intros s Hl Hr; cbn [run_video].
  - auto.
  - unfold process_image.
    destruct (find_lanes_bounded f 9 100%Z 50 s Hl Hr) as [Hl' Hr'].
    destruct (find_lanes lstsq img_shape0 f 9 100%Z 50 s) as [[e|out] s1];
      cbn [snd] in *.
    + auto.
    + apply IH; assumption.
Qed.

End Frame.

(** An accepted update on a well-formed lane, spelled out. *)
Lemma update_line_accepting (H : nat) (ploty : list Q) (ybase : Q) (fit : poly)
    (fitx : list Q) (xs ys : list Z) (l : Line) (bx d : list Q) :
  Line_wf H l ->
  length fitx = H ->
  recent_fits l <> [] ->
  bestx l = Some bx ->
  vsub fitx bx = inr d ->
  accept_test (validation_base_pos fit ybase) d bx = true ->
  let l' := snd (update_line ploty ybase fit fitx xs ys l) in
  recent_fits l' = deque_append n (recent_fits l) fit /\
  recent_xfitted l' = deque_append n (recent_xfitted l) fitx /\
  best_fit l' = Some (average_fits (recent_fits l')) /\
  average_rows (recent_xfitted l') = inr (match bestx l' with Some b => b | None => [] end) /\
  current_fit l' = Some fit /\
  detected l' = true.
Proof.
  intros (Hlen & Hall & _) Hfx Hne Hbx Hd Hacc. cbv zeta.
  rewrite (update_line_tracking ploty ybase fit fitx xs ys l bx d Hne Hbx Hd).
  cbv zeta. rewrite Hacc.
  assert (Havg : average_rows (deque_append n (recent_xfitted l) fitx) =
                 inr (map (fun j => mean (column j (deque_append n (recent_xfitted l) fitx)))
                          (seq 0 H))).
  { apply average_rows_ok.
    - apply nonempty_length. rewrite length_deque_append. unfold n.
      destruct (Nat.ltb_spec 15 (S (length (recent_xfitted l)))); lia.
    - apply Forall_deque_append; assumption. }
  rewrite (accept_line_ok fit fitx
             (set_diffs d (set_line_base_pos (Some (validation_base_pos fit ybase)) l))
             _ Havg).
  cbn.
  repeat split; try reflexivity. exact Havg.
Qed.

Lemma run_updates_bounded (us : list update_args) (l : Line) :
  bounded l -> bounded (run_updates us l).
Proof.
  unfold run_updates. revert l.
  induction us as [|u us IH]; intros l Hb; cbn [fold_left]; [exact Hb|].
  apply IH, update_line_bounded, Hb.
Qed.

(** C7. From [Line()] on, whatever updates a lane receives and whatever
    frames a video brings, and however an update or a frame ends, neither
    deque of a lane holds more than [n = 15] entries; and an update
    accepted when the history holds 15 entries drops the oldest one and
    puts the new fit and curve at the end. *)
Theorem history_never_exceeds_capacity (lstsq : list Q -> list Q -> poly)
    (img_shape0 : nat) (frames : list image) (us : list update_args) :
  let l := run_updates us Line_init in
  let s := snd (run_video lstsq img_shape0 frames Lanes_init) in
  ((length (recent_fits l) <= 15)%nat /\
   (length (recent_xfitted l) <= 15)%nat) /\
  ((length (recent_fits (left s)) <= 15)%nat /\
   (length (recent_xfitted (left s)) <= 15)%nat /\
   (length (recent_fits (right s)) <= 15)%nat /\
   (length (recent_xfitted (right s)) <= 15)%nat) /\
  (forall H ploty ybase fit fitx xs ys l bx d,
      Line_wf H l ->
      length fitx = H ->
      length (recent_fits l) = 15%nat ->
      bestx l = Some bx ->
      vsub fitx bx = inr d ->
      accept_test (validation_base_pos fit ybase) d bx = true ->
      let l' := snd (update_line ploty ybase fit fitx xs ys l) in
      recent_fits l' = tl (recent_fits l) ++ [fit] /\
      recent_xfitted l' = tl (recent_xfitted l) ++ [fitx] /\
      length (recent_fits l') = 15%nat /\
      length (recent_xfitted l') = 15%nat).
Proof.
  cbv zeta.
  assert (Hinit : bounded Line_init) by (unfold bounded, n; cbn; lia).
  split; [|split].
  - apply (run_updates_bounded us) in Hinit. exact Hinit.
  - destruct (run_video_bounded lstsq img_shape0 frames Lanes_init Hinit Hinit)
      as [[H1 H2] [H3 H4]].
    unfold n in *. auto.
  - intros H ploty ybase fit fitx xs ys l bx d Hwf Hfx Hfull Hbx Hd Hacc.
    assert (Hne : recent_fits l <> []) by (apply nonempty_length; lia).
    destruct (update_line_accepting H ploty ybase fit fitx xs ys l bx d
                Hwf Hfx Hne Hbx Hd Hacc) as (Ef & Ex & _).
    destruct Hwf as (Hlen & _).
    rewrite Ef, Ex.
    rewrite (deque_append_full n (recent_fits l) fit) by (unfold n; lia).
    rewrite (deque_append_full n (recent_xfitted l) fitx) by (unfold n; lia).
    repeat split; rewrite length_app; cbn [length].
    + destruct (recent_fits l); cbn in *; lia.
    + destruct (recent_xfitted l); cbn in *; lia.
Qed.

(** A lane filled with x = 700, ..., x = 714 accepts x = 715: x = 700
    leaves, x = 715 is the newest entry, and the count stays at 15. *)
Lemma history_never_exceeds_capacity_witness :
  let l := feed 3 2 ramp Line_init in
  let l' := snd (update_line (linspace 3) 2 (vertical 715)
                             (sample 3 (vertical 715)) [] [] l) in
  (length (recent_fits l) = 15%nat /\ hd_error (recent_fits l) = Some (vertical 700)) /\
  recent_fits l' = tl (recent_fits l) ++ [vertical 715] /\
  recent_xfitted l' = tl (recent_xfitted l) ++ [sample 3 (vertical 715)] /\
  length (recent_fits l') = 15%nat /\
  length (recent_xfitted l') = 15%nat.
Proof.
  cbv zeta. split; [split; vm_compute; reflexivity|].
  eapply (proj2 (proj2 (history_never_exceeds_capacity normal_fit 0 [] []))
            3%nat (linspace 3) 2 (vertical 715) (sample 3 (vertical 715)) [] []
            (feed 3 2 ramp Line_init)).
  - apply feed_wf, Line_init_wf.
  - reflexivity.
  - vm_compute. reflexivity.
  - vm_compute. reflexivity.
  - vm_compute. reflexivity.
  - vm_compute. reflexivity.
Defined.

(** ** The reported offset *)

Lemma getitem_bottom (f : Q -> Q) (H : nat) (v : Q) :
  getitem (map f (linspace H)) (Z.of_nat H - 1) = inr v ->
  (0 < H)%nat /\ v = f (inject_Z (Z.of_nat (H - 1))).
Proof.
  unfold getitem. rewrite length_map, length_linspace.
  destruct H as [|h].
  - cbn. discriminate.
  - replace ((0 <=? Z.of_nat (S h) - 1) && (Z.of_nat (S h) - 1 <? Z.of_nat (S h)))%Z
      with true by (symmetry; apply andb_true_iff; split; [apply Z.leb_le | apply Z.ltb_lt]; lia).
    intros E.
    assert (Ev : v = nth (Z.to_nat (Z.of_nat (S h) - 1)) (map f (linspace (S h))) 0)
      by congruence.
    clear E. subst v. split; [lia|].
    replace (Z.to_nat (Z.of_nat (S h) - 1)) with h by lia.
    replace (S h - 1)%nat with h by lia.
    unfold linspace. rewrite map_map.
    rewrite (nth_indep _ 0 (f (inject_Z (Z.of_nat 0))))
      by (rewrite length_map, length_seq; lia).
    rewrite (map_nth (fun i => f (inject_Z (Z.of_nat i))) (seq 0 (S h)) 0%nat h).
    rewrite seq_nth by lia. reflexivity.
Qed.

(** C8, evaluated on the code. A frame that returns stores one value as
    [line_base_pos] of both lanes, ((leftX + rightX)/2 - 640) * (3.7/700)
    (with leftX = 600 and rightX = 700: 10 * (3.7/700), about 0.0529, and
    positive). The row at which leftX and rightX are read off the two
    smoothed curves is [image_size[1] - 1], and [image_size] is taken from
    [img], the variable the calibration loop of the notebook leaves behind,
    not from the frame [find_lanes] is given. When [img] has the height of
    the frame this is the bottom row. On [slanted], a frame of 6 rows, with
    an [img] of 4 rows, the offset is read at row 3 and differs from the
    value at the bottom row, 5; with an [img] of 7 rows the frame ends in
    [IndexError]. *)
Theorem reported_offset_of_frame :
  (forall (lstsq : list Q -> list Q -> poly) (img_shape0 : nat)
          (binary_warped : image) (nwindows : nat) (margin : Z) (minpix : nat)
          (s s' : Lanes) (out : output),
      find_lanes lstsq img_shape0 binary_warped nwindows margin minpix s
        = (inr out, s') ->
      line_base_pos (left s') = Some (out_line_base_pos out) /\
      line_base_pos (right s') = Some (out_line_base_pos out) /\
      (img_shape0 = shape0 binary_warped ->
       exists bl br,
         best_fit (left s') = Some bl /\
         best_fit (right s') = Some br /\
         out_left_fitx out = sample (shape0 binary_warped) bl /\
         out_right_fitx out = sample (shape0 binary_warped) br /\
         let y_bottom := inject_Z (Z.of_nat (shape0 binary_warped - 1)) in
         out_line_base_pos out
           == ((polyval bl y_bottom + polyval br y_bottom) / 2 - 640) * (3.7 / 700))) /\
  reported_offset 600 700 == 10 * (3.7 / 700) /\
  0 < reported_offset 600 700 /\
  (exists out s' bl br,
      find_lanes normal_fit 4 slanted 3 3%Z 0 Lanes_init = (inr out, s') /\
      shape0 slanted = 6%nat /\
      best_fit (left s') = Some bl /\
      best_fit (right s') = Some br /\
      out_left_fitx out = sample 6 bl /\
      out_right_fitx out = sample 6 br /\
      line_base_pos (left s') = Some (out_line_base_pos out) /\
      out_line_base_pos out
        == ((polyval bl 3 + polyval br 3) / 2 - 640) * (3.7 / 700) /\
      ~ out_line_base_pos out
        == ((polyval bl 5 + polyval br 5) / 2 - 640) * (3.7 / 700)) /\
  fst (find_lanes normal_fit 7 slanted 3 3%Z 0 Lanes_init) = inl IndexError.
Proof.
  split; [|split; [|split; [|split]]].
  - intros lstsq img_shape0 binary_warped nwindows margin minpix s s' out Hrun.
    destruct (find_lanes_returns_inv lstsq img_shape0 binary_warped nwindows margin
                minpix s s' out Hrun)
      as (leftx & lefty & rightx & righty & y_eval & lfit & lfitx & ll & rfit & rfitx
          & lr & lx & rx & _ & _ & _ & _ & Hur & Hul & Hlx & Hrx & Hout & Hs').
    split; [subst out s'; reflexivity|].
    split; [subst out s'; reflexivity|].
    intros Himg.
    apply update_line_result in Hur. destruct Hur as [Hbr Erx].
    apply update_line_result in Hul. destruct Hul as [Hbl Elx].
    subst lfitx rfitx img_shape0.
    apply getitem_bottom in Hlx. destruct Hlx as [_ Hlx].
    apply getitem_bottom in Hrx. destruct Hrx as [_ Hrx].
    subst out s'. cbn.
    exists lfit, rfit. rewrite Hbl, Hbr.
    repeat split; try reflexivity.
    subst lx rx. unfold reported_offset, xm_per_pix. cbv zeta. field.
  - vm_compute. reflexivity.
  - vm_compute. reflexivity.
  - destruct (find_lanes normal_fit 4 slanted 3 3%Z 0 Lanes_init)
      as [[e|out] s'] eqn:E; [vm_compute in E; discriminate|].
    exists out, s', (mkPoly 0 (16 # 35) (-1 # 7)), (mkPoly 0 (16 # 35) (34 # 7)).
    split; [reflexivity|].
    vm_compute in E. injection E as <- <-.
    split; [reflexivity|].
    split; [reflexivity|].
    split; [reflexivity|].
    split; [vm_compute; reflexivity|].
    split; [vm_compute; reflexivity|].
    split; [reflexivity|].
    split; [vm_compute; reflexivity|].
    vm_compute. discriminate.
  - vm_compute. reflexivity.
Qed.

(** ** The sliding windows *)

Lemma good_inds_spec (nonzeroy nonzerox : list Z) (y_low y_high x_low x_high : Z)
    (i : nat) :
  In i (good_inds nonzeroy nonzerox y_low y_high x_low x_high) <->
  (i < length nonzeroy)%nat /\
  (y_low <= nth i nonzeroy 0 < y_high)%Z /\
  (x_low <= nth i nonzerox 0 < x_high)%Z.
Proof.
  unfold good_inds. rewrite filter_In, in_seq. cbv zeta.
  rewrite !andb_true_iff, !Z.leb_le, !Z.ltb_lt. intuition lia.
Qed.

Lemma length_take (a : list Z) (inds : list nat) :
  length (take a inds) = length inds.
Proof. apply length_map. Qed.



(** ** Clusters too small to fit *)

Lemma window_search_lengths (binary_warped : image) (nwindows : nat) (margin : Z)
    (minpix : nat) (leftx lefty rightx righty : list Z) :
  window_search binary_warped nwindows margin minpix
    = inr (leftx, lefty, rightx, righty) ->
  length lefty = length leftx /\ length righty = length rightx.
Proof.
  unfold window_search.
  destruct (argmax _) as [e|leftx_base]; [discriminate|].
  destruct (argmax _) as [e|right_peak]; [discriminate|].
  destruct (nwindows =? 0)%nat; [discriminate|].
  cbv zeta. intros E. injection E as <- <- <- <-.
  rewrite !length_take. split; reflexivity.
Qed.

Lemma polyfit_nonempty (lstsq : list Q -> list Q -> poly) (x y : list Q) :
  (0 < length x)%nat -> length x = length y ->
  polyfit lstsq x y = inr (lstsq x y).
Proof.
  intros Hpos Hlen. unfold polyfit.
  destruct (Nat.eqb_spec (length x) 0); [lia|].
  rewrite Hlen, Nat.eqb_refl. reflexivity.
Qed.

Lemma polyfit_empty (lstsq : list Q -> list Q -> poly) (y : list Q) :
  polyfit lstsq [] y = inl TypeError.
Proof. reflexivity. Qed.




(** ** The position used for validation *)

Lemma accept_line_base_pos (fit : poly) (fitx : list Q) (l : Line) :
  line_base_pos (snd (accept_line fit fitx l)) = line_base_pos l.
Proof.
  unfold accept_line. run_monad.
  destruct (average_rows (deque_append n (recent_xfitted l) fitx)); reflexivity.
Qed.

Lemma reject_line_base_pos (l : Line) :
  line_base_pos (snd (reject_line l)) = line_base_pos l.
Proof.
  unfold reject_line, deque_pop. run_monad.
  destruct (recent_fits l) as [|f fs]; [reflexivity|].
  destruct (recent_xfitted l) as [|c cs]; [reflexivity|]. cbn.
  destruct (length (removelast (f :: fs))); [reflexivity|]. cbn.
  destruct (average_rows (lastn n_avg (removelast (c :: cs)))); reflexivity.
Qed.

(** The position a tracking-state update stores, whichever branch it
    takes. *)
Lemma tracking_update_base_pos (ploty : list Q) (ybase : Q) (fit : poly)
    (fitx : list Q) (xs ys : list Z) (l : Line) (bx d : list Q) :
  recent_fits l <> [] ->
  bestx l = Some bx ->
  vsub fitx bx = inr d ->
  line_base_pos (snd (update_line ploty ybase fit fitx xs ys l))
  = Some ((polyval fit ybase - 640) * 3.7 / 600).
Proof.
  intros Hne Hbx Hd.
  rewrite (update_line_tracking ploty ybase fit fitx xs ys l bx d Hne Hbx Hd).
  cbv zeta.
  set (l1 := set_diffs d (set_line_base_pos (Some (validation_base_pos fit ybase)) l)).
  assert (Hc : line_base_pos
                 (snd ((if accept_test (validation_base_pos fit ybase) d bx
                        then accept_line fit fitx else reject_line) l1))
               = Some (validation_base_pos fit ybase)).
  { destruct (accept_test (validation_base_pos fit ybase) d bx);
      [rewrite accept_line_base_pos | rewrite reject_line_base_pos]; reflexivity. }
  destruct ((if accept_test (validation_base_pos fit ybase) d bx
             then accept_line fit fitx else reject_line) l1) as [[e|[]] l2];
    cbn [snd] in Hc; cbn [after_choice snd].
  - exact Hc.
  - destruct (best_fit l2); cbn; exact Hc.
Qed.

(** C4, evaluated on the code. The position stored by a tracking-state
    update is (x(ybase) - 640) * 3.7/600, with [ybase = y_eval] in the copy
    for [right] and the literal 720 in the copy for [left]. On a frame of
    height 720 that brings the fit x = y to two lanes that already track
    it, this is (719 - 640) * 3.7/600 for [right] and
    (720 - 640) * 3.7/600 for [left]. Neither is
    (x(719) - 640) * xm_per_pix, and the two sides differ. The factor
    decides updates: a lane tracking x = 1150 rejects x = 1160, which lies
    2.75 m from the centre by [xm_per_pix] and 3.21 m by 3.7/600. *)
Theorem validation_base_pos_of_update :
  (forall ploty ybase fit fitx xs ys l bx d,
      recent_fits l <> [] ->
      bestx l = Some bx ->
      vsub fitx bx = inr d ->
      line_base_pos (snd (update_line ploty ybase fit fitx xs ys l))
      = Some ((polyval fit ybase - 640) * 3.7 / 600)) /\
  (forall ploty y_eval, update_right ploty y_eval = update_line ploty y_eval) /\
  (forall ploty, update_left ploty = update_line ploty 720) /\
  let l := feed 720 719 [diagonal] Line_init in
  let ploty := linspace 720 in
  let lr := snd (update_right ploty 719 diagonal (sample 720 diagonal) [] [] l) in
  let ll := snd (update_left ploty diagonal (sample 720 diagonal) [] [] l) in
  amax ploty = inr 719 /\
  recent_fits l = [diagonal] /\
  exists vr vl,
    line_base_pos lr = Some vr /\
    line_base_pos ll = Some vl /\
    vr == (719 - 640) * 3.7 / 600 /\
    vl == (720 - 640) * 3.7 / 600 /\
    ~ vr == (polyval diagonal 719 - 640) * xm_per_pix /\
    ~ vl == (polyval diagonal 719 - 640) * xm_per_pix /\
    ~ vl == vr /\
    let l2 := feed 720 719 [vertical 1150] Line_init in
    let fitx := sample 720 (vertical 1160) in
    Qabs ((polyval (vertical 1160) 719 - 640) * xm_per_pix) <= max_distance /\
    rel_diff_lt (map2 Qminus fitx (sample 720 (vertical 1150)))
                (sample 720 (vertical 1150)) max_rel_fitx = true /\
    detected (snd (update_right ploty 719 (vertical 1160) fitx [] [] l2)) = false.
Proof.
  split; [exact tracking_update_base_pos|].
  split; [reflexivity|]. split; [reflexivity|].
  cbv zeta. split; [vm_compute; reflexivity|].
  split; [vm_compute; reflexivity|].
  eexists; eexists.
  split; [vm_compute; reflexivity|].
  split; [vm_compute; reflexivity|].
  split; [vm_compute; reflexivity|].
  split; [vm_compute; reflexivity|].
  split; [vm_compute; discriminate|].
  split; [vm_compute; discriminate|].
  split; [vm_compute; discriminate|].
  split; [vm_compute; discriminate|].
  split; vm_compute; reflexivity.
Qed.

(** ** Frames that return *)

Lemma amax_linspace (h : nat) : exists y, amax (linspace (S h)) = inr y.
Proof. eexists. reflexivity. Qed.

Lemma getitem_bottom_ok (f : Q -> Q) (h : nat) :
  getitem (map f (linspace (S h))) (Z.of_nat (S h) - 1)
  = inr (nth h (map f (linspace (S h))) 0).
Proof.
  unfold getitem. rewrite length_map, length_linspace.
  replace ((0 <=? Z.of_nat (S h) - 1) && (Z.of_nat (S h) - 1 <? Z.of_nat (S h)))%Z
    with true
    by (symmetry; apply andb_true_iff; split; [apply Z.leb_le | apply Z.ltb_lt]; lia).
  replace (Z.to_nat (Z.of_nat (S h) - 1)) with h by lia.
  reflexivity.
Qed.

(** On well-formed lanes a frame of positive height whose search finds
    pixels on both sides raises nothing, and the lanes stay well-formed:
    the exceptions of the model are out of reach in a session that starts
    from [Line()] and keeps its frame height. *)
Lemma find_lanes_returns (lstsq : list Q -> list Q -> poly)
    (binary_warped : image) (nwindows : nat) (margin : Z) (minpix : nat)
    (s : Lanes) (leftx lefty rightx righty : list Z) :
  window_search binary_warped nwindows margin minpix
    = inr (leftx, lefty, rightx, righty) ->
  leftx <> [] -> rightx <> [] ->
  (0 < shape0 binary_warped)%nat ->
  Line_wf (shape0 binary_warped) (left s) ->
  Line_wf (shape0 binary_warped) (right s) ->
  exists out s',
    find_lanes lstsq (shape0 binary_warped) binary_warped nwindows margin minpix s
      = (inr out, s') /\
    Line_wf (shape0 binary_warped) (left s') /\
    Line_wf (shape0 binary_warped) (right s').
Proof.
  intros Hsearch Hnl Hnr Hpos Hwl Hwr.
  destruct (window_search_lengths _ _ _ _ _ _ _ _ Hsearch) as [Hll Hlr].
  assert (Hpl : forall k, (0 < length (scale k lefty))%nat /\
                          length (scale k lefty) = length leftx).
  { intros k. unfold scale. rewrite length_map, Hll.
    split; [apply nonempty_length, Hnl | reflexivity]. }
  assert (Hpr : forall k, (0 < length (scale k righty))%nat /\
                          length (scale k righty) = length rightx).
  { intros k. unfold scale. rewrite length_map, Hlr.
    split; [apply nonempty_length, Hnr | reflexivity]. }
  unfold find_lanes, bind, lift. rewrite Hsearch.
  rewrite (polyfit_nonempty lstsq (to_float lefty) (to_float leftx))
    by (unfold to_float; rewrite !length_map, ?Hll;
        try reflexivity; apply nonempty_length, Hnl).
  rewrite (polyfit_nonempty lstsq (to_float righty) (to_float rightx))
    by (unfold to_float; rewrite !length_map, ?Hlr;
        try reflexivity; apply nonempty_length, Hnr).
  rewrite (polyfit_nonempty lstsq (scale ym_per_pix lefty) (scale xm_per_pix leftx))
    by (try apply Hpl; unfold scale; rewrite !length_map; exact Hll).
  rewrite (polyfit_nonempty lstsq (scale ym_per_pix righty) (scale xm_per_pix rightx))
    by (try apply Hpr; unfold scale; rewrite !length_map; exact Hlr).
  destruct (shape0 binary_warped) as [|h] eqn:EH; [lia|].
  destruct (amax_linspace h) as [y_eval ->].
  set (rf := lstsq (to_float righty) (to_float rightx)).
  set (lf := lstsq (to_float lefty) (to_float leftx)).
  unfold on_right at 1, update_right.
  destruct (update_line_wf (S h) (linspace (S h)) y_eval rf
              (map (polyval rf) (linspace (S h))) rightx righty (right s) Hwr)
    as [Hwr' [[rfit rfitx] Er]];
    [rewrite length_map; apply length_linspace|].
  destruct (update_line (linspace (S h)) y_eval rf _ rightx righty (right s))
    as [rres lr] eqn:Eur.
  cbn [fst snd] in Hwr', Er. subst rres.
  unfold on_left at 1, update_left. cbn [left right].
  destruct (update_line_wf (S h) (linspace (S h)) 720 lf
              (map (polyval lf) (linspace (S h))) leftx lefty (left s) Hwl)
    as [Hwl' [[lfit lfitx] El]];
    [rewrite length_map; apply length_linspace|].
  destruct (update_line (linspace (S h)) 720 lf _ leftx lefty (left s))
    as [lres ll] eqn:Eul.
  cbn [fst snd] in Hwl', El. subst lres.
  apply update_line_result in Eur. destruct Eur as [_ ->].
  apply update_line_result in Eul. destruct Eul as [_ ->].
  cbn [fst snd]. rewrite !getitem_bottom_ok.
  unfold modify, ret. cbn [fst snd left right].
  eexists; eexists. split; [reflexivity|].
  cbn [left right]. split.
  - destruct Hwl' as (A & B & C). repeat split; assumption.
  - destruct Hwr' as (A & B & C). repeat split; assumption.
Qed.

(** Well-formedness is an invariant of a session whose frames share a
    height, whether its frames return or raise. *)
Lemma find_lanes_wf (lstsq : list Q -> list Q -> poly) (img_shape0 : nat)
    (binary_warped : image) (nwindows : nat) (margin : Z) (minpix : nat)
    (s : Lanes) :
  Line_wf (shape0 binary_warped) (left s) ->
  Line_wf (shape0 binary_warped) (right s) ->
  let s' := snd (find_lanes lstsq img_shape0 binary_warped nwindows margin minpix s) in
  Line_wf (shape0 binary_warped) (left s') /\
  Line_wf (shape0 binary_warped) (right s').
Proof.
  apply (find_lanes_preserves lstsq img_shape0 (Line_wf (shape0 binary_warped))).
  - intros ybase fit xs ys l Hwf.
    apply update_line_wf; [exact Hwf | apply length_sample].
  - intros v l Hwf. exact Hwf.
Qed.

Lemma run_video_wf (lstsq : list Q -> list Q -> poly) (img_shape0 H : nat)
    (frames : list image) (s : Lanes) :
  Forall (fun f => shape0 f = H) frames ->
  Line_wf H (left s) -> Line_wf H (right s) ->
  let s' := snd (run_video lstsq img_shape0 frames s) in
  Line_wf H (left s') /\ Line_wf H (right s').
Proof.
  intros Hframes. revert s.
  induction Hframes as [|f frames Hf _ IH]; intros s Hl Hr; cbn [run_video].
  - auto.
  - unfold process_image. subst H.
    destruct (find_lanes_wf lstsq img_shape0 f 9 100%Z 50 s Hl Hr) as [Hl' Hr'].
    destruct (find_lanes lstsq img_shape0 f 9 100%Z 50 s) as [[e|out] s1];
      cbn [snd] in *.
    + auto.
    + apply IH; assumption.
Qed.

(** ** The radius of curvature *)

Section Curvature.

Local Open Scope R_scope.

Lemma Q2R_1 : Q2R 1 = 1.
Proof. unfold Q2R. cbn. lra. Qed.

Lemma Q2R_2 : Q2R 2 = 2.
Proof. unfold Q2R. cbn. lra. Qed.

Lemma Q2R_slope (a b y k : Q) :
  Q2R (1 + (2 * a * (y * k) + b) ^ 2) =
  1 + (2 * Q2R a * Q2R y * Q2R k + Q2R b) ^ 2.
Proof.
  rewrite (Qeq_eqR _ (1 + (2 * a * (y * k) + b) * (2 * a * (y * k) + b))%Q)
    by (cbn; ring).
  rewrite !Q2R_plus, !Q2R_mult, !Q2R_plus, !Q2R_mult, Q2R_1, Q2R_2. ring.
Qed.

Lemma Rpower_15_sq (x : R) : 0 < x -> (Rpower x 1.5) ^ 2 = x ^ 3.
Proof.
  intros Hx. cbn [pow]. rewrite Rmult_1_r, <- Rpower_plus.
  replace (1.5 + 1.5) with (INR 3) by (cbn; lra).
  rewrite Rpower_pow by exact Hx. reflexivity.
Qed.

Lemma slope_term_positive (fit_cr : poly) (y_eval : Q) :
  0 < Q2R (1 + (2 * f0 fit_cr * (y_eval * ym_per_pix) + f1 fit_cr) ^ 2).
Proof.
  rewrite Q2R_slope.
  match goal with |- 0 < 1 + ?u ^ 2 => pose proof (pow2_ge_0 u) end. lra.
Qed.

(** With a zero leading coefficient the divisor is exactly zero and the
    division is carried out. *)
Lemma curverad_zero (fit_cr : poly) (y_eval : Q) :
  (f0 fit_cr == 0)%Q -> curverad fit_cr y_eval = (PlusInf, [DivideByZero]).
Proof.
  intros Ha. unfold curverad. cbv zeta. rewrite <- Q2R_slope.
  apply Qeq_eqR in Ha.
  replace (Q2R 0) with 0 in Ha by (unfold Q2R; cbn; lra).
  rewrite Ha, Rmult_0_r, Rabs_R0. unfold fdiv.
  destruct (Req_dec_T 0 0) as [_|C]; [|contradiction].
  destruct (Rlt_dec 0 (Rpower (Q2R (1 + (2 * f0 fit_cr * (y_eval * ym_per_pix)
                                         + f1 fit_cr) ^ 2)) 1.5)) as [_|C];
    [reflexivity|].
  exfalso. apply C. unfold Rpower. apply exp_pos.
Qed.

Lemma curverad_nonzero (fit_cr : poly) (y_eval : Q) :
  ~ (f0 fit_cr == 0)%Q ->
  curverad fit_cr y_eval =
  (Finite (Rpower (Q2R (1 + (2 * f0 fit_cr * (y_eval * ym_per_pix) + f1 fit_cr) ^ 2)) 1.5
           / Rabs (Q2R (2 * f0 fit_cr))), []).
Proof.
  intros Ha. unfold curverad. cbv zeta. rewrite <- Q2R_slope.
  assert (HaR : Q2R (f0 fit_cr) <> 0).
  { intros C. apply Ha. apply eqR_Qeq. rewrite C. unfold Q2R. cbn. lra. }
  assert (Hden : 0 < Rabs (2 * Q2R (f0 fit_cr))) by (apply Rabs_pos_lt; lra).
  unfold fdiv.
  destruct (Req_dec_T (Rabs (2 * Q2R (f0 fit_cr))) 0) as [C|_]; [lra|].
  rewrite Q2R_mult, Q2R_2. reflexivity.
Qed.

(** C6, as the code has it. The curvature computation has no guard: it
    divides (1 + (2 a y + b)^2)^1.5 by |2 a| for every world-space fit,
    with y the bottom row in world units. For a = 0 the divisor is exactly
    zero and the float64 division yields inf together with numpy's
    divide-by-zero warning. For a <> 0 the result is the finite, positive
    R = (1 + (2 a y + b)^2)^1.5 / |2 a|, whose square is the rational
    (1 + (2 a y + b)^2)^3 / (2 a)^2. *)
Theorem radius_divides_unguarded (fit_cr : poly) (y_eval : Q) :
  let a := f0 fit_cr in
  let b := f1 fit_cr in
  let y := (y_eval * ym_per_pix)%Q in
  let s := (1 + (2 * a * y + b) ^ 2)%Q in
  ((a == 0)%Q -> curverad fit_cr y_eval = (PlusInf, [DivideByZero])) /\
  (~ (a == 0)%Q ->
   exists r,
     curverad fit_cr y_eval = (Finite r, []) /\
     r = Rpower (Q2R s) 1.5 / Rabs (Q2R (2 * a)) /\
     0 < r /\
     r ^ 2 = Q2R (s ^ 3 / (2 * a) ^ 2)).
Proof.
  cbv zeta. split; [apply curverad_zero|].
  intros Ha. rewrite (curverad_nonzero fit_cr y_eval Ha).
  set (s := (1 + (2 * f0 fit_cr * (y_eval * ym_per_pix) + f1 fit_cr) ^ 2)%Q).
  pose proof (slope_term_positive fit_cr y_eval) as Hs. fold s in Hs.
  assert (HaR : Q2R (f0 fit_cr) <> 0).
  { intros C. apply Ha. apply eqR_Qeq. rewrite C. unfold Q2R. cbn. lra. }
  eexists. split; [reflexivity|]. split; [reflexivity|].
  rewrite Q2R_mult, Q2R_2.
  assert (Hden : 0 < Rabs (2 * Q2R (f0 fit_cr))) by (apply Rabs_pos_lt; lra).
  split.
  - apply Rdiv_lt_0_compat; [unfold Rpower; apply exp_pos | exact Hden].
  - unfold Rdiv. rewrite Rpow_mult_distr, Rpower_15_sq by exact Hs.
    rewrite pow_inv. rewrite RPow_abs, Rabs_pos_eq by apply pow2_ge_0.
    assert (Hq : ~ ((2 * f0 fit_cr) ^ 2 == 0)%Q).
    { intros C. apply Qeq_eqR in C.
      rewrite (Qeq_eqR _ ((2 * f0 fit_cr) * (2 * f0 fit_cr))%Q) in C by (cbn; ring).
      rewrite !Q2R_mult, Q2R_2 in C.
      replace (Q2R 0) with 0 in C by (unfold Q2R; cbn; lra). nra. }
    unfold Qdiv. rewrite Q2R_mult, Q2R_inv by exact Hq.
    rewrite (Qeq_eqR (s ^ 3) (s * s * s)%Q) by (cbn; ring).
    rewrite (Qeq_eqR ((2 * f0 fit_cr) ^ 2) ((2 * f0 fit_cr) * (2 * f0 fit_cr))%Q)
      by (cbn; ring).
    rewrite !Q2R_mult, Q2R_2. field. lra.
Qed.

(** C6 as stated fails: for the straight lane x = 3.7, with a = 0 and
    b = 0, the divisor [np.absolute(2*a)] is zero and the code divides by
    it; the result comes with the divide-by-zero warning. *)
Lemma straight_lane_divides_by_zero :
  Rabs (2 * Q2R (f0 (vertical 3.7%Q))) = 0 /\
  curverad (vertical 3.7%Q) 719 = (PlusInf, [DivideByZero]).
Proof.
  split.
  - replace (Q2R (f0 (vertical 3.7%Q))) with 0 by (unfold Q2R; cbn; lra).
    rewrite Rmult_0_r. apply Rabs_R0.
  - apply curverad_zero. reflexivity.
Qed.

End Curvature.

(** * Further properties *)

(** ** The seeds and the exceptions of the search *)

Lemma window_search_parts (binary_warped : image) (nwindows : nat) (margin : Z)
    (minpix : nat) :
  window_search binary_warped nwindows margin minpix =
  match histogram_seeds binary_warped with
  | inl e => inl e
  | inr (leftx_base, rightx_base) =>
      if (nwindows =? 0)%nat then inl ZeroDivisionError
      else
        let s := window_loop binary_warped nwindows margin minpix
                             leftx_base rightx_base nwindows in
        let nonzeroy := map fst (nonzero binary_warped) in
        let nonzerox := map snd (nonzero binary_warped) in
        inr (take nonzerox (concat (left_lane_inds s)),
             take nonzeroy (concat (left_lane_inds s)),
             take nonzerox (concat (right_lane_inds s)),
             take nonzeroy (concat (right_lane_inds s)))
  end.
Proof.
  unfold window_search, histogram_seeds.
  destruct (argmax (firstn _ _)) as [e|lb]; [reflexivity|].
  destruct (argmax (skipn _ _)) as [e|rp]; reflexivity.
Qed.

Lemma length_histogram (img : image) : length (histogram img) = shape1 img.
Proof. unfold histogram. rewrite length_map, length_seq. reflexivity. Qed.

(** [np.argmax] returns the first position of the largest entry. *)
Lemma argmax_from_spec (l pre : list Z) (bi : nat) (b : Z) :
  (bi < length pre)%nat ->
  nth bi pre 0%Z = b ->
  (forall j, (j < length pre)%nat -> (nth j pre 0 <= b)%Z) ->
  (forall j, (j < bi)%nat -> (nth j pre 0 < b)%Z) ->
  let r := argmax_from bi b (length pre) l in
  (r < length (pre ++ l))%nat /\
  (forall j, (j < length (pre ++ l))%nat ->
             (nth j (pre ++ l) 0 <= nth r (pre ++ l) 0)%Z) /\
  (forall j, (j < r)%nat -> (nth j (pre ++ l) 0 < nth r (pre ++ l) 0)%Z).
Proof.
  revert pre bi b. induction l as [|x l IH]; intros pre bi b Hbi Hb Hmax Hfirst.
  - cbn. rewrite app_nil_r, Hb. auto.
  - cbn [argmax_from].
    replace (pre ++ x :: l) with ((pre ++ [x]) ++ l)
      by (rewrite <- app_assoc; reflexivity).
    replace (S (length pre)) with (length (pre ++ [x]))
      by (rewrite length_app; cbn; lia).
    destruct (Z.ltb_spec b x) as [Hlt|Hge].
    + replace (length pre) with (length pre + 0)%nat at 1 by lia.
      assert (Eq : length pre = (length (pre ++ [x]) - 1)%nat)
        by (rewrite length_app; cbn; lia).
      rewrite Nat.add_0_r.
      apply (IH (pre ++ [x]) (length pre) x).
      * rewrite length_app. cbn. lia.
      * rewrite app_nth2 by lia. rewrite Nat.sub_diag. reflexivity.
      * intros j Hj. rewrite length_app in Hj. cbn in Hj.
        destruct (Nat.eq_dec j (length pre)) as [->|Hne].
        -- rewrite app_nth2 by lia. rewrite Nat.sub_diag. cbn. lia.
        -- rewrite app_nth1 by lia. specialize (Hmax j ltac:(lia)). lia.
      * intros j Hj. rewrite app_nth1 by lia. specialize (Hmax j Hj). lia.
    + apply (IH (pre ++ [x]) bi b).
      * rewrite length_app. cbn. lia.
      * rewrite app_nth1 by lia. exact Hb.
      * intros j Hj. rewrite length_app in Hj. cbn in Hj.
        destruct (Nat.eq_dec j (length pre)) as [->|Hne].
        -- rewrite app_nth2 by lia. rewrite Nat.sub_diag. cbn. lia.
        -- rewrite app_nth1 by lia. apply Hmax. lia.
      * intros j Hj. rewrite app_nth1 by lia. apply Hfirst, Hj.
Qed.

Lemma argmax_spec (l : list Z) (i : nat) :
  argmax l = inr i ->
  (i < length l)%nat /\
  (forall j, (j < length l)%nat -> (nth j l 0 <= nth i l 0)%Z) /\
  (forall j, (j < i)%nat -> (nth j l 0 < nth i l 0)%Z).
Proof.
  destruct l as [|x l]; [discriminate|].
  cbn [argmax]. intros E. injection E as <-.
  apply (argmax_from_spec l [x] 0%nat x); cbn; auto; try lia.
  intros j Hj. assert (j = 0)%nat by lia. subst. cbn. lia.
Qed.

Lemma argmax_nonempty (l : list Z) : l <> [] -> exists i, argmax l = inr i.
Proof. destruct l; [congruence|]. intros _. eexists. reflexivity. Qed.

(** X1. When the search gets past the histogram, the left seed is a
    column of the left half and the right seed a column of the right half
    of the frame; each is the first column of its half whose sum over the
    bottom rows is largest. *)
Theorem seeds_lie_in_their_halves (binary_warped : image) (leftx_base rightx_base : nat) :
  histogram_seeds binary_warped = inr (leftx_base, rightx_base) ->
  let hist := histogram binary_warped in
  let midpoint := (shape1 binary_warped / 2)%nat in
  (leftx_base < midpoint)%nat /\
  (midpoint <= rightx_base < shape1 binary_warped)%nat /\
  (forall x, (x < midpoint)%nat -> (nth x hist 0 <= nth leftx_base hist 0)%Z) /\
  (forall x, (x < leftx_base)%nat -> (nth x hist 0 < nth leftx_base hist 0)%Z) /\
  (forall x, (midpoint <= x < shape1 binary_warped)%nat ->
             (nth x hist 0 <= nth rightx_base hist 0)%Z) /\
  (forall x, (midpoint <= x < rightx_base)%nat ->
             (nth x hist 0 < nth rightx_base hist 0)%Z).
Proof.
  unfold histogram_seeds. cbv zeta. rewrite length_histogram.
  set (hist := histogram binary_warped).
  set (mid := (shape1 binary_warped / 2)%nat).
  assert (Hlen : length hist = shape1 binary_warped) by apply length_histogram.
  assert (Hmid : (mid <= shape1 binary_warped)%nat).
  { unfold mid. apply Nat.Div0.div_le_upper_bound. lia. }
  destruct (argmax (firstn mid hist)) as [e|lb] eqn:El; [discriminate|].
  destruct (argmax (skipn mid hist)) as [e|rp] eqn:Er; [discriminate|].
  intros E. injection E as <- <-.
  apply argmax_spec in El. destruct El as (L1 & L2 & L3).
  apply argmax_spec in Er. destruct Er as (R1 & R2 & R3).
  rewrite length_firstn in L1, L2. rewrite length_skipn in R1, R2.
  assert (Hf : forall j, (j < mid)%nat -> nth j (firstn mid hist) 0%Z = nth j hist 0%Z).
  { intros j Hj. rewrite nth_firstn.
    destruct (Nat.ltb_spec j mid); [reflexivity | lia]. }
  assert (Hs : forall j, nth j (skipn mid hist) 0%Z = nth (mid + j) hist 0%Z).
  { intros j. apply nth_skipn. }
  split; [lia|]. split; [lia|].
  split.
  { intros x Hx. rewrite <- !Hf by lia. apply L2. lia. }
  split.
  { intros x Hx. rewrite <- !Hf by lia. apply L3, Hx. }
  split.
  { intros x Hx. replace x with (mid + (x - mid))%nat by lia.
    replace (rp + mid)%nat with (mid + rp)%nat by lia.
    rewrite <- !Hs. apply R2. lia. }
  { intros x Hx. replace x with (mid + (x - mid))%nat by lia.
    replace (rp + mid)%nat with (mid + rp)%nat by lia.
    rewrite <- !Hs. apply R3. lia. }
Qed.

(** On [two_columns] the seeds are the two lit columns, 1 and 6. *)
Lemma seeds_lie_in_their_halves_witness :
  histogram_seeds two_columns = inr (1%nat, 6%nat) /\
  let hist := histogram two_columns in
  let midpoint := (shape1 two_columns / 2)%nat in
  (1 < midpoint)%nat /\
  (midpoint <= 6 < shape1 two_columns)%nat /\
  (forall x, (x < midpoint)%nat -> (nth x hist 0 <= nth 1 hist 0)%Z) /\
  (forall x, (x < 1)%nat -> (nth x hist 0 < nth 1 hist 0)%Z) /\
  (forall x, (midpoint <= x < shape1 two_columns)%nat ->
             (nth x hist 0 <= nth 6 hist 0)%Z) /\
  (forall x, (midpoint <= x < 6)%nat -> (nth x hist 0 < nth 6 hist 0)%Z).
Proof.
  split; [vm_compute; reflexivity|].
  apply (seeds_lie_in_their_halves two_columns 1 6).
  vm_compute. reflexivity.
Defined.

Lemma histogram_seeds_wide (binary_warped : image) :
  (2 <= shape1 binary_warped)%nat ->
  exists lb rb, histogram_seeds binary_warped = inr (lb, rb).
Proof.
  intros HW. unfold histogram_seeds. cbv zeta. rewrite length_histogram.
  assert (Hmid : (0 < shape1 binary_warped / 2 < shape1 binary_warped)%nat).
  { split.
    - apply Nat.div_str_pos. lia.
    - apply Nat.div_lt; lia. }
  destruct (argmax_nonempty (firstn (shape1 binary_warped / 2) (histogram binary_warped)))
    as [lb ->].
  { apply nonempty_length. rewrite length_firstn, length_histogram. lia. }
  destruct (argmax_nonempty (skipn (shape1 binary_warped / 2) (histogram binary_warped)))
    as [rp ->].
  { apply nonempty_length. rewrite length_skipn, length_histogram. lia. }
  eexists; eexists. reflexivity.
Qed.

Lemma histogram_seeds_narrow (binary_warped : image) :
  (shape1 binary_warped < 2)%nat ->
  histogram_seeds binary_warped = inl ValueError.
Proof.
  intros HW. unfold histogram_seeds. cbv zeta. rewrite length_histogram.
  replace (shape1 binary_warped / 2)%nat with 0%nat.
  - reflexivity.
  - symmetry. apply Nat.div_small. lia.
Qed.

Lemma window_search_outcome (binary_warped : image) (nwindows : nat) (margin : Z)
    (minpix : nat) :
  ((shape1 binary_warped < 2)%nat ->
   window_search binary_warped nwindows margin minpix = inl ValueError) /\
  ((2 <= shape1 binary_warped)%nat -> nwindows = 0%nat ->
   window_search binary_warped nwindows margin minpix = inl ZeroDivisionError) /\
  ((2 <= shape1 binary_warped)%nat -> nwindows <> 0%nat ->
   exists cl, window_search binary_warped nwindows margin minpix = inr cl).
Proof.
  rewrite window_search_parts. split; [|split].
  - intros Hn. rewrite histogram_seeds_narrow by exact Hn. reflexivity.
  - intros Hw ->. destruct (histogram_seeds_wide binary_warped Hw) as (lb & rb & ->).
    reflexivity.
  - intros Hw Hnw. destruct (histogram_seeds_wide binary_warped Hw) as (lb & rb & ->).
    destruct (Nat.eqb_spec nwindows 0) as [C|_]; [contradiction|].
    eexists. reflexivity.
Qed.

(** X2. The search, from the histogram of the grayscale frame on,
    raises in exactly two situations. A frame with fewer than two columns
    leaves half of the histogram empty and
    [np.argmax] raises [ValueError]; with two columns or more and
    [nwindows = 0] the window height is a division by zero. In every other
    case the search returns. In [find_lanes] an exception of the search
    ends the frame with both lanes untouched. *)
Theorem search_errors (lstsq : list Q -> list Q -> poly) (img_shape0 : nat)
    (binary_warped : image) (nwindows : nat) (margin : Z) (minpix : nat) :
  (window_search binary_warped nwindows margin minpix = inl ValueError
   <-> (shape1 binary_warped < 2)%nat) /\
  (window_search binary_warped nwindows margin minpix = inl ZeroDivisionError
   <-> (2 <= shape1 binary_warped)%nat /\ nwindows = 0%nat) /\
  ((exists cl, window_search binary_warped nwindows margin minpix = inr cl)
   <-> (2 <= shape1 binary_warped)%nat /\ nwindows <> 0%nat) /\
  (forall e s,
      window_search binary_warped nwindows margin minpix = inl e ->
      find_lanes lstsq img_shape0 binary_warped nwindows margin minpix s = (inl e, s)).
Proof.
  destruct (window_search_outcome binary_warped nwindows margin minpix)
    as (Hnarrow & Hzero & Hok).
  assert (Hprop : forall e s,
      window_search binary_warped nwindows margin minpix = inl e ->
      find_lanes lstsq img_shape0 binary_warped nwindows margin minpix s = (inl e, s)).
  { intros e s E. unfold find_lanes, bind, lift. rewrite E. reflexivity. }
  destruct (Nat.lt_ge_cases (shape1 binary_warped) 2) as [Hn|Hw];
    [|destruct (Nat.eq_dec nwindows 0) as [Hz|Hnz]].
  - rewrite (Hnarrow Hn). split; [|split; [|split]]; trivial.
    + split; [intros _; exact Hn | reflexivity].
    + split; [discriminate | intros [Hw _]; lia].
    + split; [intros [cl C]; discriminate | intros [Hw _]; lia].
    + intros e s E. apply Hprop. rewrite (Hnarrow Hn). exact E.
  - rewrite (Hzero Hw Hz). split; [|split; [|split]].
    + split; [discriminate | intros Hn; lia].
    + split; [intros _; split; assumption | reflexivity].
    + split; [intros [cl C]; discriminate | intros [_ C]; contradiction].
    + intros e s E. apply Hprop. rewrite (Hzero Hw Hz). exact E.
  - destruct (Hok Hw Hnz) as [cl Hcl]. rewrite Hcl. split; [|split; [|split]].
    + split; [discriminate | intros Hn; lia].
    + split; [discriminate | intros [_ C]; contradiction].
    + split; [intros _; split; assumption | intros _; eexists; reflexivity].
    + intros e s E. discriminate.
Qed.

(** ** What the bands collect *)

Lemma nonzero_spec (img : image) (y x : Z) :
  In (y, x) (nonzero img) <->
  exists r c : nat,
    y = Z.of_nat r /\ x = Z.of_nat c /\
    (r < shape0 img)%nat /\ (c < shape1 img)%nat /\ pixel img r c <> 0%Z.
Proof.
  unfold nonzero. rewrite in_flat_map. split.
  - intros (r & Hr & Hin). apply in_flat_map in Hin. destruct Hin as (c & Hc & Hin).
    apply in_seq in Hr. apply in_seq in Hc.
    destruct (Z.eqb_spec (pixel img r c) 0) as [E|E]; [contradiction|].
    destruct Hin as [Hin|[]]. injection Hin as <- <-.
    exists r, c. repeat split; trivial; lia.
  - intros (r & c & -> & -> & Hr & Hc & Hp).
    exists r. split; [apply in_seq; lia|].
    apply in_flat_map. exists c. split; [apply in_seq; lia|].
    destruct (Z.eqb_spec (pixel img r c) 0) as [E|E]; [contradiction|].
    left. reflexivity.
Qed.

Lemma NoDup_flat_map_keyed {A B : Type} (key : B -> A) (f : A -> list B)
    (l : list A) :
  NoDup l ->
  (forall a, NoDup (f a)) ->
  (forall a b, In b (f a) -> key b = a) ->
  NoDup (flat_map f l).
Proof.
  intros Hl Hf Hkey. induction Hl as [|a l Hnotin Hl IH]; cbn; [constructor|].
  apply NoDup_app; [apply Hf | exact IH |].
  intros b Hb Hb'. apply in_flat_map in Hb'. destruct Hb' as (a' & Ha' & Hb').
  apply Hkey in Hb, Hb'. congruence.
Qed.

(** [nonzero] lists no pixel twice. *)
Lemma NoDup_nonzero (img : image) : NoDup (nonzero img).
Proof.
  unfold nonzero.
  apply (NoDup_flat_map_keyed (fun p => Z.to_nat (fst p))).
  - apply seq_NoDup.
  - intros r. apply (NoDup_flat_map_keyed (fun p => Z.to_nat (snd p))).
    + apply seq_NoDup.
    + intros c. destruct (pixel img r c =? 0)%Z; repeat constructor. intros [].
    + intros c p Hin. destruct (pixel img r c =? 0)%Z; [contradiction|].
      destruct Hin as [<-|[]]. cbn. apply Nat2Z.id.
  - intros r p Hin. apply in_flat_map in Hin. destruct Hin as (c & _ & Hin).
    destruct (pixel img r c =? 0)%Z; [contradiction|].
    destruct Hin as [<-|[]]. cbn. apply Nat2Z.id.
Qed.

Lemma window_loop_S (binary_warped : image) (nwindows : nat) (margin : Z)
    (minpix : nat) (lb rb k : nat) :
  window_loop binary_warped nwindows margin minpix lb rb (S k) =
  window_step (shape0 binary_warped) (Z.of_nat (shape0 binary_warped / nwindows))
              margin minpix
              (map fst (nonzero binary_warped)) (map snd (nonzero binary_warped))
              (window_loop binary_warped nwindows margin minpix lb rb k) k.
Proof.
  unfold window_loop. rewrite seq_S, fold_left_app. reflexivity.
Qed.

Lemma collected_ok_step (height : nat) (wh : Z) (nonzeroy nonzerox : list Z)
    (k : nat) (inds : list nat) (x_low x_high : Z) :
  (0 <= wh)%Z ->
  collected_ok height wh nonzeroy k inds ->
  collected_ok height wh nonzeroy (S k)
    (inds ++ good_inds nonzeroy nonzerox
                       (Z.of_nat height - (Z.of_nat k + 1) * wh)
                       (Z.of_nat height - Z.of_nat k * wh) x_low x_high).
Proof.
  intros Hwh [Hin Hnd]. split.
  - intros i Hi. apply in_app_or in Hi. destruct Hi as [Hi|Hi].
    + destruct (Hin i Hi) as [Hl Hy]. split; [exact Hl|]. nia.
    + apply good_inds_spec in Hi. destruct Hi as (Hl & Hy & _).
      split; [exact Hl|]. nia.
  - apply NoDup_app; [exact Hnd | apply NoDup_filter, seq_NoDup |].
    intros i Hi Hi'. apply good_inds_spec in Hi'. destruct Hi' as (_ & Hy & _).
    destruct (Hin i Hi) as [_ Hy']. lia.
Qed.

Lemma window_loop_collected (binary_warped : image) (nwindows : nat) (margin : Z)
    (minpix : nat) (lb rb k : nat) :
  let s := window_loop binary_warped nwindows margin minpix lb rb k in
  let wh := Z.of_nat (shape0 binary_warped / nwindows) in
  let nonzeroy := map fst (nonzero binary_warped) in
  collected_ok (shape0 binary_warped) wh nonzeroy k (concat (left_lane_inds s)) /\
  collected_ok (shape0 binary_warped) wh nonzeroy k (concat (right_lane_inds s)).
Proof.
  cbv zeta. induction k as [|k [IHl IHr]].
  - cbn. split; (split; [intros i [] | constructor]).
  - rewrite window_loop_S. unfold window_step. cbv zeta.
    cbn [left_lane_inds right_lane_inds].
    rewrite !concat_app. cbn [concat]. rewrite !app_nil_r.
    split; apply collected_ok_step; trivial; lia.
Qed.

Lemma nth_take (a : list Z) (inds : list nat) (i : nat) :
  (i < length inds)%nat -> nth i (take a inds) 0%Z = nth (nth i inds 0%nat) a 0%Z.
Proof.
  intros Hi. unfold take.
  rewrite (nth_indep _ 0%Z (nth 0%nat a 0%Z)) by (rewrite length_map; exact Hi).
  apply (map_nth (fun j => nth j a 0%Z)).
Qed.

Lemma nth_map_fst (l : list (Z * Z)) (j : nat) :
  nth j (map fst l) 0%Z = fst (nth j l (0%Z, 0%Z)).
Proof. exact (map_nth fst l (0%Z, 0%Z) j). Qed.

Lemma nth_map_snd (l : list (Z * Z)) (j : nat) :
  nth j (map snd l) 0%Z = snd (nth j l (0%Z, 0%Z)).
Proof. exact (map_nth snd l (0%Z, 0%Z) j). Qed.

Lemma collected_lit_pixels (binary_warped : image) (nwindows : nat) (inds : list nat) :
  collected_ok (shape0 binary_warped) (Z.of_nat (shape0 binary_warped / nwindows))
               (map fst (nonzero binary_warped)) nwindows inds ->
  lit_pixels binary_warped
             (shape0 binary_warped - nwindows * (shape0 binary_warped / nwindows))
             (take (map snd (nonzero binary_warped)) inds)
             (take (map fst (nonzero binary_warped)) inds).
Proof.
  intros [Hin _]. split; [rewrite !length_take; reflexivity|].
  intros i Hi. rewrite length_take in Hi.
  destruct (Hin (nth i inds 0%nat) (nth_In _ _ Hi)) as [Hl Hy].
  rewrite length_map in Hl.
  rewrite !nth_take by exact Hi.
  set (j := nth i inds 0%nat) in *.
  rewrite nth_map_fst in Hy. rewrite nth_map_fst, nth_map_snd.
  pose proof (nth_In (nonzero binary_warped) (0%Z, 0%Z) Hl) as Hmem.
  destruct (nth j (nonzero binary_warped) (0%Z, 0%Z)) as [y x] eqn:Ep.
  apply nonzero_spec in Hmem.
  destruct Hmem as (r & c & -> & -> & Hr & Hc & Hp).
  exists r, c. cbn [fst snd] in *. repeat split; trivial. nia.
Qed.

Lemma collected_no_repeats (binary_warped : image) (wh : Z) (k : nat)
    (inds : list nat) :
  collected_ok (shape0 binary_warped) wh (map fst (nonzero binary_warped)) k inds ->
  NoDup (combine (take (map fst (nonzero binary_warped)) inds)
                 (take (map snd (nonzero binary_warped)) inds)).
Proof.
  intros [Hin Hnd].
  assert (E : combine (take (map fst (nonzero binary_warped)) inds)
                      (take (map snd (nonzero binary_warped)) inds)
              = map (fun i => nth i (nonzero binary_warped) (0%Z, 0%Z)) inds).
  { unfold take. clear. induction inds as [|i inds IH]; [reflexivity|].
    cbn [map combine]. rewrite IH. f_equal.
    rewrite nth_map_fst, nth_map_snd.
    destruct (nth i (nonzero binary_warped) (0%Z, 0%Z)); reflexivity. }
  rewrite E. apply NoDup_map_NoDup_ForallPairs; [|exact Hnd].
  intros i j Hi Hj Heq.
  destruct (Hin i Hi) as [Hli _]. destruct (Hin j Hj) as [Hlj _].
  rewrite length_map in Hli, Hlj.
  apply (proj1 (NoDup_nth (nonzero binary_warped) (0%Z, 0%Z))
               (NoDup_nonzero binary_warped) i j Hli Hlj Heq).
Qed.

Lemma window_search_clusters (binary_warped : image) (nwindows : nat) (margin : Z)
    (minpix : nat) (leftx lefty rightx righty : list Z) :
  window_search binary_warped nwindows margin minpix
    = inr (leftx, lefty, rightx, righty) ->
  exists lb rb,
    let s := window_loop binary_warped nwindows margin minpix lb rb nwindows in
    leftx = take (map snd (nonzero binary_warped)) (concat (left_lane_inds s)) /\
    lefty = take (map fst (nonzero binary_warped)) (concat (left_lane_inds s)) /\
    rightx = take (map snd (nonzero binary_warped)) (concat (right_lane_inds s)) /\
    righty = take (map fst (nonzero binary_warped)) (concat (right_lane_inds s)).
Proof.
  rewrite window_search_parts.
  destruct (histogram_seeds binary_warped) as [e|[lb rb]]; [discriminate|].
  destruct (nwindows =? 0)%nat; [discriminate|].
  cbv zeta. intros E. injection E as <- <- <- <-.
  exists lb, rb. repeat split; reflexivity.
Qed.

(** X3. Every pixel of a cluster returned by the search is a lit pixel
    of the frame, inside the frame, and not above the topmost band: the
    rows numbered below [shape0 - nwindows * (shape0 / nwindows)], which
    the bands leave over when the height is no multiple of [nwindows], are
    never searched. *)
Theorem clusters_are_lit_pixels (binary_warped : image) (nwindows : nat) (margin : Z)
    (minpix : nat) (leftx lefty rightx righty : list Z) :
  window_search binary_warped nwindows margin minpix
    = inr (leftx, lefty, rightx, righty) ->
  let lowest :=
    (shape0 binary_warped - nwindows * (shape0 binary_warped / nwindows))%nat in
  lit_pixels binary_warped lowest leftx lefty /\
  lit_pixels binary_warped lowest rightx righty.
Proof.
  intros Hs. cbv zeta.
  destruct (window_search_clusters _ _ _ _ _ _ _ _ Hs) as (lb & rb & -> & -> & -> & ->).
  destruct (window_loop_collected binary_warped nwindows margin minpix lb rb nwindows)
    as [Hl Hr].
  split; apply collected_lit_pixels; assumption.
Qed.

(** On [tall_column], five rows searched in two bands of two rows, row 0 is
    left out: the left cluster is column 1 on rows 3, 4, 1, 2. *)
Lemma clusters_are_lit_pixels_witness :
  match window_search tall_column 2 2%Z 0 with
  | inr (leftx, lefty, rightx, righty) =>
      leftx = [1%Z; 1%Z; 1%Z; 1%Z] /\ lefty = [3%Z; 4%Z; 1%Z; 2%Z] /\
      lit_pixels tall_column 1 leftx lefty /\
      lit_pixels tall_column 1 rightx righty
  | inl _ => False
  end.
Proof.
  destruct (window_search tall_column 2 2%Z 0)
    as [e|[[[leftx lefty] rightx] righty]] eqn:E.
  - vm_compute in E. discriminate.
  - split; [vm_compute in E; congruence|].
    split; [vm_compute in E; congruence|].
    apply (clusters_are_lit_pixels tall_column 2 2%Z 0 leftx lefty rightx righty E).
Defined.

(** X4. A side's cluster holds no pixel twice: the bands do not
    overlap, so each lit pixel is collected by one band at most. (The two
    sides may share pixels.) *)
Theorem clusters_have_no_repeats (binary_warped : image) (nwindows : nat) (margin : Z)
    (minpix : nat) (leftx lefty rightx righty : list Z) :
  window_search binary_warped nwindows margin minpix
    = inr (leftx, lefty, rightx, righty) ->
  NoDup (combine lefty leftx) /\ NoDup (combine righty rightx).
Proof.
  intros Hs.
  destruct (window_search_clusters _ _ _ _ _ _ _ _ Hs) as (lb & rb & -> & -> & -> & ->).
  destruct (window_loop_collected binary_warped nwindows margin minpix lb rb nwindows)
    as [Hl Hr].
  split; eapply collected_no_repeats; eassumption.
Qed.

(** The clusters found on [two_columns]. *)
Lemma clusters_have_no_repeats_witness :
  match window_search two_columns 3 2%Z 0 with
  | inr (leftx, lefty, rightx, righty) =>
      NoDup (combine lefty leftx) /\ NoDup (combine righty rightx)
  | inl _ => False
  end.
Proof.
  destruct (window_search two_columns 3 2%Z 0)
    as [e|[[[leftx lefty] rightx] righty]] eqn:E.
  - vm_compute in E. discriminate.
  - apply (clusters_have_no_repeats two_columns 3 2%Z 0 leftx lefty rightx righty E).
Defined.

(** ** How far a window moves *)

Lemma Zsum_bounds (xs : list Z) (lo hi : Z) :
  Forall (fun x => (lo <= x < hi)%Z) xs ->
  (Z.of_nat (length xs) * lo <= Zsum xs <= Z.of_nat (length xs) * (hi - 1))%Z.
Proof.
  induction 1 as [|x xs Hx _ IH]; cbn [Zsum fold_right length].
  - lia.
  - fold (Zsum xs). rewrite Nat2Z.inj_succ. nia.
Qed.

Lemma int_mean_bounds (xs : list Z) (lo hi : Z) :
  xs <> [] ->
  Forall (fun x => (lo <= x < hi)%Z) xs ->
  (lo <= int_mean xs < hi)%Z.
Proof.
  intros Hne Hall. unfold int_mean.
  pose proof (Zsum_bounds xs lo hi Hall) as [Hlo Hhi].
  assert (Hpos : (0 < Z.of_nat (length xs))%Z).
  { apply nonempty_length in Hne. lia. }
  split.
  - apply Z.quot_le_lower_bound; assumption.
  - apply Z.le_lt_trans with (hi - 1)%Z; [|lia].
    apply Z.quot_le_upper_bound; assumption.
Qed.

Lemma recenter_within (minpix : nat) (nonzeroy nonzerox : list Z)
    (y_low y_high current margin : Z) :
  let good := good_inds nonzeroy nonzerox y_low y_high
                        (current - margin) (current + margin) in
  let next := recenter minpix nonzerox good current in
  next = current \/ (current - margin <= next < current + margin)%Z.
Proof.
  cbv zeta. unfold recenter.
  destruct (Nat.ltb_spec minpix
              (length (good_inds nonzeroy nonzerox y_low y_high
                                 (current - margin) (current + margin))))
    as [Hmany|Hfew]; [right | left; reflexivity].
  apply int_mean_bounds.
  - apply nonempty_length. rewrite length_take. lia.
  - unfold take. apply Forall_forall. intros x Hx.
    apply in_map_iff in Hx. destruct Hx as (i & <- & Hi).
    apply good_inds_spec in Hi. apply Hi.
Qed.

(** X5. From one band to the next a window centre either stays or
    moves to a column inside the window it was searching, so it moves by
    [margin] at most; after [k] bands it is within [k * margin] of its
    seed. *)
Theorem window_moves_within_margin (binary_warped : image) (nwindows : nat)
    (margin : Z) (minpix : nat) (leftx_base rightx_base k : nat) :
  let s := window_loop binary_warped nwindows margin minpix leftx_base rightx_base k in
  let s' := window_loop binary_warped nwindows margin minpix leftx_base rightx_base (S k) in
  (leftx_current s' = leftx_current s \/
   (leftx_current s - margin <= leftx_current s' < leftx_current s + margin)%Z) /\
  (rightx_current s' = rightx_current s \/
   (rightx_current s - margin <= rightx_current s' < rightx_current s + margin)%Z) /\
  (Z.abs (leftx_current s - Z.of_nat leftx_base) <= Z.of_nat k * Z.max 0 margin)%Z /\
  (Z.abs (rightx_current s - Z.of_nat rightx_base) <= Z.of_nat k * Z.max 0 margin)%Z.
Proof.
  cbv zeta.
  assert (Hstep : forall j,
    let s := window_loop binary_warped nwindows margin minpix leftx_base rightx_base j in
    let s' := window_loop binary_warped nwindows margin minpix leftx_base rightx_base (S j) in
    (leftx_current s' = leftx_current s \/
     (leftx_current s - margin <= leftx_current s' < leftx_current s + margin)%Z) /\
    (rightx_current s' = rightx_current s \/
     (rightx_current s - margin <= rightx_current s' < rightx_current s + margin)%Z)).
  { intros j. cbv zeta. rewrite window_loop_S. unfold window_step. cbv zeta.
    cbn [leftx_current rightx_current]. split; apply recenter_within. }
  split; [apply Hstep|]. split; [apply Hstep|].
  clear - Hstep. induction k as [|k [IHl IHr]].
  - cbn. lia.
  - destruct (Hstep k) as [Hl Hr]. cbv zeta in Hl, Hr.
    rewrite Nat2Z.inj_succ. split; lia.
Qed.

(** ** Accepted fits and the tracking state *)

Lemma deque_append_cases {A : Type} (q : list A) (x : A) :
  deque_append n q x =
  if (length q <? 15)%nat then q ++ [x] else tl q ++ [x].
Proof.
  unfold deque_append, n. rewrite length_app. cbn [length].
  destruct (Nat.ltb_spec (length q) 15) as [Hlt|Hge];
    destruct (Nat.ltb_spec 15 (length q + 1)); try lia; try reflexivity.
  destruct q; [cbn in *; lia | reflexivity].
Qed.

(** X6. An accepted update on a well-formed lane appends the fit and
    its curve to the history (the oldest entry leaves when 15 are held),
    then sets [best_fit] and [bestx] to the arithmetic mean over the whole
    retained history, the new entry included, [current_fit] to the new fit
    and [detected] to true. *)
Theorem accept_averages_whole_history (H : nat) (ploty : list Q) (ybase : Q)
    (fit : poly) (fitx : list Q) (xs ys : list Z) (l : Line) (bx d : list Q) :
  Line_wf H l ->
  length fitx = H ->
  recent_fits l <> [] ->
  bestx l = Some bx ->
  vsub fitx bx = inr d ->
  accept_test (validation_base_pos fit ybase) d bx = true ->
  let '(r, l') := update_line ploty ybase fit fitx xs ys l in
  let fits' := recent_fits l' in
  let curves' := recent_xfitted l' in
  let avg := mkPoly (mean (map f0 fits')) (mean (map f1 fits')) (mean (map f2 fits')) in
  fits' = (if (length (recent_fits l) <? 15)%nat then recent_fits l ++ [fit]
           else tl (recent_fits l) ++ [fit]) /\
  curves' = (if (length (recent_fits l) <? 15)%nat then recent_xfitted l ++ [fitx]
             else tl (recent_xfitted l) ++ [fitx]) /\
  best_fit l' = Some avg /\
  bestx l' = Some (map (fun j => mean (column j curves')) (seq 0 H)) /\
  current_fit l' = Some fit /\
  detected l' = true /\
  r = inr (avg, map (polyval avg) ploty).
Proof.
  intros Hwf Hfx Hne Hbx Hd Hacc.
  pose proof Hwf as (Hlen & Hall & _).
  rewrite (update_line_tracking ploty ybase fit fitx xs ys l bx d Hne Hbx Hd).
  cbv zeta. rewrite Hacc.
  assert (Havg : average_rows (deque_append n (recent_xfitted l) fitx) =
                 inr (map (fun j => mean (column j (deque_append n (recent_xfitted l) fitx)))
                          (seq 0 H))).
  { apply average_rows_ok.
    - apply nonempty_length. rewrite length_deque_append. unfold n.
      destruct (Nat.ltb_spec 15 (S (length (recent_xfitted l)))); lia.
    - apply Forall_deque_append; assumption. }
  rewrite (accept_line_ok fit fitx
             (set_diffs d (set_line_base_pos (Some (validation_base_pos fit ybase)) l))
             _ Havg).
  cbn.
  rewrite (deque_append_cases (recent_fits l) fit),
    (deque_append_cases (recent_xfitted l) fitx), Hlen.
  repeat split; reflexivity.
Qed.

(** A lane holding the fifteen lines of [ramp] accepts x = 715. *)
Lemma accept_averages_whole_history_witness :
  let l := feed 3 2 ramp Line_init in
  let '(r, l') := update_line (linspace 3) 2 (vertical 715)
                              (sample 3 (vertical 715)) [5%Z] [1%Z] l in
  let fits' := recent_fits l' in
  let curves' := recent_xfitted l' in
  let avg := mkPoly (mean (map f0 fits')) (mean (map f1 fits')) (mean (map f2 fits')) in
  fits' = (if (length (recent_fits l) <? 15)%nat then recent_fits l ++ [vertical 715]
           else tl (recent_fits l) ++ [vertical 715]) /\
  curves' = (if (length (recent_fits l) <? 15)%nat
             then recent_xfitted l ++ [sample 3 (vertical 715)]
             else tl (recent_xfitted l) ++ [sample 3 (vertical 715)]) /\
  best_fit l' = Some avg /\
  bestx l' = Some (map (fun j => mean (column j curves')) (seq 0 3)) /\
  current_fit l' = Some (vertical 715) /\
  detected l' = true /\
  r = inr (avg, map (polyval avg) (linspace 3)).
Proof.
  cbv zeta.
  eapply (accept_averages_whole_history 3 (linspace 3) 2 (vertical 715)
            (sample 3 (vertical 715)) [5%Z] [1%Z] (feed 3 2 ramp Line_init)).
  - apply feed_wf, Line_init_wf.
  - reflexivity.
  - vm_compute. discriminate.
  - vm_compute. reflexivity.
  - vm_compute. reflexivity.
  - vm_compute. reflexivity.
Defined.

(** X7. In the tracking state an update on a well-formed lane
    stores the frame's pixel cluster in [allx], [ally] whether the fit is
    accepted or rejected, keeps the pointwise difference to [bestx] in
    [diffs], and leaves in [detected] the outcome of the acceptance
    test. *)
Theorem tracking_update_keeps_cluster (H : nat) (ploty : list Q) (ybase : Q)
    (fit : poly) (fitx : list Q) (xs ys : list Z) (l : Line) (bx : list Q) :
  Line_wf H l ->
  length fitx = H ->
  recent_fits l <> [] ->
  bestx l = Some bx ->
  let l' := snd (update_line ploty ybase fit fitx xs ys l) in
  let d := map2 Qminus fitx bx in
  allx l' = Some xs /\
  ally l' = Some ys /\
  diffs l' = d /\
  detected l' = accept_test (validation_base_pos fit ybase) d bx.
Proof.
  intros Hwf Hfx Hne Hbx. cbv zeta.
  pose proof Hwf as (Hlen & Hall & Hbest).
  destruct (Hbest Hne) as (bx0 & bf & Hbx0 & Hbxlen & Hbf).
  assert (bx0 = bx) by congruence. subst bx0.
  assert (Hd : vsub fitx bx = inr (map2 Qminus fitx bx))
    by (apply vsub_same_length; congruence).
  rewrite (update_line_tracking ploty ybase fit fitx xs ys l bx _ Hne Hbx Hd).
  cbv zeta.
  set (l1 := set_diffs _ _).
  destruct (accept_test (validation_base_pos fit ybase) (map2 Qminus fitx bx) bx).
  - rewrite (accept_line_ok fit fitx l1
      (map (fun j => mean (column j (deque_append n (recent_xfitted l) fitx)))
           (seq 0 H))).
    + cbn. repeat split; reflexivity.
    + cbn. apply average_rows_ok.
      * apply nonempty_length. rewrite length_deque_append. unfold n.
        destruct (Nat.ltb_spec 15 (S (length (recent_xfitted l)))); lia.
      * apply Forall_deque_append; assumption.
  - assert (Hxne : recent_xfitted l <> []).
    { apply nonempty_length. rewrite Hlen. apply nonempty_length, Hne. }
    destruct (removelast (recent_fits l)) as [|g gs] eqn:Eg.
    + rewrite reject_line_last; cbn; trivial.
      rewrite Hbf. cbn. repeat split; reflexivity.
    + assert (Hrf : removelast (recent_fits l) <> []) by (rewrite Eg; discriminate).
      rewrite (reject_line_ok l1
        (map (fun j => mean (column j (lastn n_avg (removelast (recent_xfitted l)))))
             (seq 0 H))).
      * cbn. repeat split; reflexivity.
      * exact Hxne.
      * exact Hrf.
      * cbn. apply average_rows_ok.
        -- apply nonempty_length.
           apply nonempty_length in Hrf. rewrite length_removelast in Hrf.
           rewrite length_lastn, length_removelast, Hlen. unfold n_avg. lia.
        -- apply Forall_lastn, Forall_removelast, Hall.
Qed.

(** A lane at x = 700 is given x = 1200 with a cluster of one pixel: the
    fit is rejected and the cluster stored. *)
Lemma tracking_update_keeps_cluster_witness :
  let l := feed 3 2 [vertical 700] Line_init in
  let l' := snd (update_line (linspace 3) 2 (vertical 1200)
                             (sample 3 (vertical 1200)) [5%Z] [1%Z] l) in
  let d := map2 Qminus (sample 3 (vertical 1200)) (sample 3 (vertical 700)) in
  allx l' = Some [5%Z] /\
  ally l' = Some [1%Z] /\
  diffs l' = d /\
  detected l' = accept_test (validation_base_pos (vertical 1200) 2) d
                            (sample 3 (vertical 700)).
Proof.
  cbv zeta.
  apply (tracking_update_keeps_cluster 3 (linspace 3) 2 (vertical 1200)
           (sample 3 (vertical 1200)) [5%Z] [1%Z] (feed 3 2 [vertical 700] Line_init)
           (sample 3 (vertical 700))).
  - apply feed_wf, Line_init_wf.
  - reflexivity.
  - vm_compute. discriminate.
  - vm_compute. reflexivity.
Defined.

(** X8. An update never takes an estimate away: a lane that has a
    [best_fit] and a [bestx] has them after any sequence of updates,
    however each one ends, also when rejections have emptied the
    history. *)
Theorem estimate_never_lost (us : list update_args) (l : Line) :
  best_fit l <> None ->
  bestx l <> None ->
  best_fit (run_updates us l) <> None /\ bestx (run_updates us l) <> None.
Proof.
  unfold run_updates. revert l.
  induction us as [|u us IH]; intros l Hbf Hbx; cbn [fold_left]; [auto|].
  apply IH.
  - unfold update_line, seed_line, accept_line, reject_line, deque_pop, bind, get,
      modify, lift, unwrap, ret, raise.
    unfold_setters.
    destruct (length (recent_fits l) =? 0)%nat; cbn; [discriminate|].
    destruct (bestx l) as [bx|]; cbn; [|exact Hbf].
    destruct (vsub (u_fitx u) bx) as [e|d]; cbn; [exact Hbf|].
    destruct (accept_test _ d bx); cbn.
    + destruct (average_rows _); cbn; [exact Hbf | discriminate].
    + destruct (recent_fits l) as [|f fs]; cbn; [exact Hbf|].
      destruct (recent_xfitted l) as [|c cs]; cbn; [exact Hbf|].
      destruct (length (removelast (f :: fs))); cbn.
      * destruct (best_fit l); cbn; [discriminate | exact Hbf].
      * destruct (average_rows _); cbn; [exact Hbf | discriminate].
  - unfold update_line, seed_line, accept_line, reject_line, deque_pop, bind, get,
      modify, lift, unwrap, ret, raise.
    unfold_setters.
    destruct (length (recent_fits l) =? 0)%nat; cbn; [discriminate|].
    destruct (bestx l) as [bx|]; cbn; [|contradiction].
    destruct (vsub (u_fitx u) bx) as [e|d]; cbn; [discriminate|].
    destruct (accept_test _ d bx); cbn.
    + destruct (average_rows _); cbn; discriminate.
    + destruct (recent_fits l) as [|f fs]; cbn; [discriminate|].
      destruct (recent_xfitted l) as [|c cs]; cbn; [discriminate|].
      destruct (length (removelast (f :: fs))); cbn.
      * destruct (best_fit l); cbn; discriminate.
      * destruct (average_rows _); cbn; discriminate.
Qed.

(** Three updates with x = 1200 on a lane at x = 700: a rejection, a seed
    and a rejection again. The history ends empty, the estimates stay. *)
Lemma estimate_never_lost_witness :
  let l := feed 3 2 [vertical 700] Line_init in
  let us := [far_update; far_update; far_update] in
  recent_fits (run_updates us l) = [] /\
  best_fit (run_updates us l) <> None /\ bestx (run_updates us l) <> None.
Proof.
  cbv zeta. split; [vm_compute; reflexivity|].
  apply (estimate_never_lost [far_update; far_update; far_update]
           (feed 3 2 [vertical 700] Line_init)).
  - vm_compute. discriminate.
  - vm_compute. discriminate.
Defined.

(** ** Streaks of rejections *)

Lemma rejected_update_histories (ploty : list Q) (ybase : Q) (fit : poly)
    (fitx : list Q) (xs ys : list Z) (l : Line) (bx d : list Q) :
  recent_fits l <> [] ->
  bestx l = Some bx ->
  vsub fitx bx = inr d ->
  accept_test (validation_base_pos fit ybase) d bx = false ->
  recent_fits (snd (update_line ploty ybase fit fitx xs ys l))
    = removelast (recent_fits l) /\
  recent_xfitted (snd (update_line ploty ybase fit fitx xs ys l))
    = removelast (recent_xfitted l) /\
  detected (snd (update_line ploty ybase fit fitx xs ys l)) = false.
Proof.
  intros Hne Hbx Hd Hacc.
  rewrite (update_line_rejecting ploty ybase fit fitx xs ys l bx d Hne Hbx Hd Hacc).
  pose proof (after_choice_fields ploty xs ys
    (reject_line (set_diffs d
       (set_line_base_pos (Some (validation_base_pos fit ybase)) l)))) as Hfr.
  cbv zeta in Hfr. destruct Hfr as (Hdet & Hxf & _ & Hfits & _ & _).
  rewrite Hdet, Hxf, Hfits.
  apply (reject_line_history
    (set_diffs d (set_line_base_pos (Some (validation_base_pos fit ybase)) l))).
  exact Hne.
Qed.

Lemma firstn_removelast_le {A : Type} (k : nat) (q : list A) :
  (k <= length q - 1)%nat -> firstn k (removelast q) = firstn k q.
Proof.
  intros Hk. destruct q as [|a q'] using rev_ind; [reflexivity|].
  rewrite removelast_last. rewrite length_app in Hk. cbn in Hk.
  rewrite firstn_app.
  replace (k - length q')%nat with 0%nat by lia.
  cbn. rewrite app_nil_r. reflexivity.
Qed.

Lemma removelast_as_firstn {A : Type} (q : list A) :
  removelast q = firstn (length q - 1) q.
Proof.
  rewrite removelast_firstn_len. f_equal. lia.
Qed.

(** X9. A streak of [k] rejected updates removes the [k] newest
    entries of the history and adds none: what remains are the oldest
    entries, in order. A streak as long as the history empties it, and
    the update after it is taken in by the empty-history branch. *)
Theorem rejections_drain_history (us : list update_args) (l : Line) :
  (length us <= length (recent_fits l))%nat ->
  all_rejected us l ->
  let l' := run_updates us l in
  recent_fits l' = firstn (length (recent_fits l) - length us) (recent_fits l) /\
  recent_xfitted l'
    = firstn (length (recent_xfitted l) - length us) (recent_xfitted l) /\
  (length us = length (recent_fits l) ->
   recent_fits l' = [] /\
   forall ploty ybase fit fitx xs ys,
     fst (update_line ploty ybase fit fitx xs ys l') = inr (fit, fitx) /\
     recent_fits (snd (update_line ploty ybase fit fitx xs ys l')) = [fit]).
Proof.
  assert (Hseed : forall l0 : Line,
    recent_fits l0 = [] ->
    forall ploty ybase fit fitx xs ys,
      fst (update_line ploty ybase fit fitx xs ys l0) = inr (fit, fitx) /\
      recent_fits (snd (update_line ploty ybase fit fitx xs ys l0)) = [fit]).
  { intros l0 E ploty ybase fit fitx xs ys.
    rewrite (update_line_seed _ _ _ _ _ _ _ E), seed_line_run. cbn [fst snd recent_fits].
    rewrite E. split; reflexivity. }
  cbv zeta. unfold run_updates. revert l.
  induction us as [|u us IH]; intros l Hk Hrej; cbn [fold_left length].
  - rewrite !Nat.sub_0_r, !firstn_all.
    split; [reflexivity|]. split; [reflexivity|].
    intros E. symmetry in E. apply length_zero_iff_nil in E.
    split; [exact E | apply Hseed, E].
  - cbn [all_rejected] in Hrej. destruct Hrej as [(bx & d & Hbx & Hd & Hacc) Hrest].
    cbn [length] in Hk.
    assert (Hne : recent_fits l <> []) by (apply nonempty_length; lia).
    destruct (rejected_update_histories (u_ploty u) (u_ybase u) (u_fit u) (u_fitx u)
                (u_xs u) (u_ys u) l bx d Hne Hbx Hd Hacc) as (Ef & Ex & _).
    set (l1 := snd (update_line (u_ploty u) (u_ybase u) (u_fit u) (u_fitx u)
                                (u_xs u) (u_ys u) l)) in *.
    assert (Hk1 : (length us <= length (recent_fits l1))%nat).
    { rewrite Ef, length_removelast. lia. }
    destruct (IH l1 Hk1 Hrest) as (If & Ix & Ie).
    split; [|split].
    1, 2: rewrite ?If, ?Ix, ?Ef, ?Ex, !length_removelast.
    + rewrite firstn_removelast_le by lia. f_equal. lia.
    + rewrite firstn_removelast_le by lia. f_equal. lia.
    + intros E. apply Ie. rewrite Ef, length_removelast. lia.
Qed.

(** Two rejections on a history of three entries. *)
Lemma rejections_drain_history_witness :
  let l := feed 3 2 [vertical 700; vertical 701; vertical 702] Line_init in
  let us := [far_update; far_update] in
  let l' := run_updates us l in
  recent_fits l' = firstn (length (recent_fits l) - length us) (recent_fits l) /\
  recent_xfitted l'
    = firstn (length (recent_xfitted l) - length us) (recent_xfitted l) /\
  (length us = length (recent_fits l) ->
   recent_fits l' = [] /\
   forall ploty ybase fit fitx xs ys,
     fst (update_line ploty ybase fit fitx xs ys l') = inr (fit, fitx) /\
     recent_fits (snd (update_line ploty ybase fit fitx xs ys l')) = [fit]).
Proof.
  cbv zeta.
  apply (rejections_drain_history [far_update; far_update]
           (feed 3 2 [vertical 700; vertical 701; vertical 702] Line_init)).
  - vm_compute. lia.
  - split; [do 2 eexists; repeat split; vm_compute; reflexivity|].
    split; [do 2 eexists; repeat split; vm_compute; reflexivity|].
    exact I.
Defined.

(** ** The first frame and the session *)

(** X10. The first frame that returns on fresh lanes seeds both of
    them with the raw least-squares fits of their clusters, unvalidated:
    each lane holds one history entry, the fit and its curve over the rows
    of the frame, which are also its estimates; [detected] is set. The
    pixel clusters are not stored on this frame: [allx] and [ally] stay
    unset until the first update in the tracking state. *)
Theorem first_frame_seeds_both_lanes (lstsq : list Q -> list Q -> poly)
    (img_shape0 : nat) (binary_warped : image) (nwindows : nat) (margin : Z)
    (minpix : nat) (out : output) (s' : Lanes) :
  find_lanes lstsq img_shape0 binary_warped nwindows margin minpix Lanes_init
    = (inr out, s') ->
  exists leftx lefty rightx righty,
    window_search binary_warped nwindows margin minpix
      = inr (leftx, lefty, rightx, righty) /\
    let left_fit := lstsq (to_float lefty) (to_float leftx) in
    let right_fit := lstsq (to_float righty) (to_float rightx) in
    let height := shape0 binary_warped in
    (recent_fits (left s') = [left_fit] /\
     recent_xfitted (left s') = [sample height left_fit] /\
     best_fit (left s') = Some left_fit /\
     bestx (left s') = Some (sample height left_fit) /\
     current_fit (left s') = Some left_fit /\
     detected (left s') = true /\
     allx (left s') = None /\ ally (left s') = None) /\
    (recent_fits (right s') = [right_fit] /\
     recent_xfitted (right s') = [sample height right_fit] /\
     best_fit (right s') = Some right_fit /\
     bestx (right s') = Some (sample height right_fit) /\
     current_fit (right s') = Some right_fit /\
     detected (right s') = true /\
     allx (right s') = None /\ ally (right s') = None) /\
    out_left_fitx out = sample height left_fit /\
    out_right_fitx out = sample height right_fit.
Proof.
  intros Hrun.
  destruct (find_lanes_returns_inv lstsq img_shape0 binary_warped nwindows margin
              minpix Lanes_init s' out Hrun)
    as (leftx & lefty & rightx & righty & y_eval & lfit & lfitx & ll & rfit & rfitx
        & lr & lx & rx & Hsearch & _ & _ & _ & Hur & Hul & _ & _ & Hout & Hs').
  exists leftx, lefty, rightx, righty. split; [exact Hsearch|].
  unfold update_right in Hur. unfold update_left in Hul.
  rewrite update_line_seed, seed_line_run in Hur by reflexivity.
  rewrite update_line_seed, seed_line_run in Hul by reflexivity.
  injection Hur as <- <- <-. injection Hul as <- <- <-.
  subst out s'. cbn. repeat split; reflexivity.
Qed.

(** The first frame of a session, [two_columns] searched in three bands. *)
Lemma first_frame_seeds_both_lanes_witness :
  match find_lanes normal_fit 6 two_columns 3 2%Z 0 Lanes_init with
  | (inr out, s') =>
      exists leftx lefty rightx righty,
        window_search two_columns 3 2%Z 0 = inr (leftx, lefty, rightx, righty) /\
        let left_fit := normal_fit (to_float lefty) (to_float leftx) in
        let right_fit := normal_fit (to_float righty) (to_float rightx) in
        let height := shape0 two_columns in
        (recent_fits (left s') = [left_fit] /\
         recent_xfitted (left s') = [sample height left_fit] /\
         best_fit (left s') = Some left_fit /\
         bestx (left s') = Some (sample height left_fit) /\
         current_fit (left s') = Some left_fit /\
         detected (left s') = true /\
         allx (left s') = None /\ ally (left s') = None) /\
        (recent_fits (right s') = [right_fit] /\
         recent_xfitted (right s') = [sample height right_fit] /\
         best_fit (right s') = Some right_fit /\
         bestx (right s') = Some (sample height right_fit) /\
         current_fit (right s') = Some right_fit /\
         detected (right s') = true /\
         allx (right s') = None /\ ally (right s') = None) /\
        out_left_fitx out = sample height left_fit /\
        out_right_fitx out = sample height right_fit
  | (inl _, _) => False
  end.
Proof.
  destruct (find_lanes normal_fit 6 two_columns 3 2%Z 0 Lanes_init)
    as [[e|out] s'] eqn:E.
  - vm_compute in E. discriminate.
  - apply (first_frame_seeds_both_lanes normal_fit 6 two_columns 3 2%Z 0%nat out s' E).
Defined.

(** X11. Through a video whose frames share a height, and from
    fresh lanes, both lanes stay well-formed whether frames return or
    raise: the two deques of a lane have the same length, every stored
    curve has one sample per row, and a lane with history has a [bestx] of
    that length and a [best_fit]. *)
Theorem session_keeps_lanes_well_formed (lstsq : list Q -> list Q -> poly)
    (img_shape0 height : nat) (frames : list image) :
  Forall (fun f => shape0 f = height) frames ->
  let s := snd (run_video lstsq img_shape0 frames Lanes_init) in
  Line_wf height (left s) /\ Line_wf height (right s).
Proof.
  intros Hframes.
  apply (run_video_wf lstsq img_shape0 height frames Lanes_init Hframes);
    apply Line_init_wf.
Qed.

(** Two frames that return and a dark one that raises, under the default
    parameters. *)
Lemma session_keeps_lanes_well_formed_witness :
  let s := snd (run_video normal_fit 9 [road; road; dark_road] Lanes_init) in
  length (recent_fits (left s)) = 2%nat /\
  Line_wf 9 (left s) /\ Line_wf 9 (right s).
Proof.
  cbv zeta. split; [vm_compute; reflexivity|].
  apply (session_keeps_lanes_well_formed normal_fit 9 9 [road; road; dark_road]).
  repeat constructor.
Defined.

(** [y_eval], the largest entry of [ploty], is the index of the last
    row. *)
Lemma amax_linspace_last (h : nat) :
  amax (linspace (S h)) = inr (inject_Z (Z.of_nat h)).
Proof.
  unfold amax, linspace. cbn [seq map]. f_equal.
  rewrite <- seq_shift, map_map.
  induction h as [|h IH]; [reflexivity|].
  rewrite seq_S, map_app, fold_left_app, IH. cbn.
  replace (Qle_bool (inject_Z (Z.of_nat h)) (inject_Z (Z.pos (Pos.of_succ_nat h))))
    with true; [reflexivity|].
  symmetry. apply Qle_bool_iff. rewrite <- Zle_Qle. lia.
Qed.

(** ** The row of the reported offset *)

Lemma nth_sampled (f : Q -> Q) (H i : nat) :
  (i < H)%nat -> nth i (map f (linspace H)) 0 = f (inject_Z (Z.of_nat i)).
Proof.
  intros Hi. unfold linspace. rewrite map_map.
  rewrite (nth_indep _ 0 (f (inject_Z (Z.of_nat 0))))
    by (rewrite length_map, length_seq; exact Hi).
  rewrite (map_nth (fun j => f (inject_Z (Z.of_nat j))) (seq 0 H) 0%nat i).
  rewrite seq_nth by exact Hi. reflexivity.
Qed.

(** Reading a sampled curve at index [k - 1]: the row [k - 1] when
    [1 <= k <= H], the last row when [k = 0] (the index -1), and
    [IndexError] when [k > H]. *)
Lemma getitem_sampled (f : Q -> Q) (H k : nat) :
  getitem (map f (linspace H)) (Z.of_nat k - 1) =
  if (H <? k)%nat then inl IndexError
  else if (H =? 0)%nat then inl IndexError
  else inr (f (inject_Z (Z.of_nat (if (k =? 0)%nat then H - 1 else k - 1)))).
Proof.
  unfold getitem. rewrite length_map, length_linspace.
  destruct (Nat.ltb_spec H k) as [Hlt|Hle].
  - destruct (Z.leb_spec 0 (Z.of_nat k - 1)); [|lia].
    destruct (Z.ltb_spec (Z.of_nat k - 1) (Z.of_nat H)); [lia|]. cbn [andb].
    destruct (Z.ltb_spec (Z.of_nat k - 1) 0); [lia|].
    rewrite andb_false_r. reflexivity.
  - destruct (Nat.eqb_spec H 0) as [->|HH].
    + assert (k = 0)%nat by lia. subst k. reflexivity.
    + destruct (Nat.eqb_spec k 0) as [->|Hk].
      * cbn [Z.of_nat Z.sub Z.add Z.opp Z.leb Z.compare andb].
        replace (- Z.of_nat H <=? -1)%Z with true by (symmetry; apply Z.leb_le; lia).
        cbn. replace (Z.to_nat (Z.of_nat H + -1)) with (H - 1)%nat by lia.
        rewrite nth_sampled by lia. reflexivity.
      * replace ((0 <=? Z.of_nat k - 1) && (Z.of_nat k - 1 <? Z.of_nat H))%Z with true
          by (symmetry; apply andb_true_iff; split;
              [apply Z.leb_le | apply Z.ltb_lt]; lia).
        replace (Z.to_nat (Z.of_nat k - 1)) with (k - 1)%nat by lia.
        rewrite nth_sampled by lia. reflexivity.
Qed.

(** X12. The row at which the reported offset is read comes from the
    height of the notebook-level [img], not from the frame: it is row
    [img_shape0 - 1] of the two smoothed curves. A frame returns only if
    [img] is no taller than the frame; with an [img] of height 0 the index
    is -1 and the last row is read. *)
Theorem offset_row_follows_img (lstsq : list Q -> list Q -> poly)
    (img_shape0 : nat) (binary_warped : image) (nwindows : nat) (margin : Z)
    (minpix : nat) (s s' : Lanes) (out : output) :
  find_lanes lstsq img_shape0 binary_warped nwindows margin minpix s = (inr out, s') ->
  (img_shape0 <= shape0 binary_warped)%nat /\
  exists bl br,
    best_fit (left s') = Some bl /\
    best_fit (right s') = Some br /\
    let row := (if (img_shape0 =? 0)%nat then shape0 binary_warped - 1
                else img_shape0 - 1)%nat in
    let y := inject_Z (Z.of_nat row) in
    out_line_base_pos out = reported_offset (polyval bl y) (polyval br y).
Proof.
  intros Hrun.
  destruct (find_lanes_returns_inv lstsq img_shape0 binary_warped nwindows margin
              minpix s s' out Hrun)
    as (leftx & lefty & rightx & righty & y_eval & lfit & lfitx & ll & rfit & rfitx
        & lr & lx & rx & _ & _ & _ & _ & Hur & Hul & Hlx & Hrx & Hout & Hs').
  apply update_line_result in Hur. destruct Hur as [Hbr Erx].
  apply update_line_result in Hul. destruct Hul as [Hbl Elx].
  subst lfitx rfitx. rewrite getitem_sampled in Hlx, Hrx.
  destruct (Nat.ltb_spec (shape0 binary_warped) img_shape0) as [|Hle]; [discriminate|].
  destruct (shape0 binary_warped =? 0)%nat; [discriminate|].
  injection Hlx as <-. injection Hrx as <-.
  split; [exact Hle|].
  exists lfit, rfit. subst out s'. cbn. rewrite Hbl, Hbr.
  repeat split; reflexivity.
Qed.

(** An [img] of 4 rows with a frame of 6: the offset is read at row 3. *)
Lemma offset_row_follows_img_witness :
  match find_lanes normal_fit 4 two_columns 3 2%Z 0 Lanes_init with
  | (inr out, s') =>
      (4 <= shape0 two_columns)%nat /\
      exists bl br,
        best_fit (left s') = Some bl /\
        best_fit (right s') = Some br /\
        let y := inject_Z (Z.of_nat 3) in
        out_line_base_pos out = reported_offset (polyval bl y) (polyval br y)
  | (inl _, _) => False
  end.
Proof.
  destruct (find_lanes normal_fit 4 two_columns 3 2%Z 0 Lanes_init)
    as [[e|out] s'] eqn:E.
  - vm_compute in E. discriminate.
  - apply (offset_row_follows_img normal_fit 4 two_columns 3 2%Z 0%nat
             Lanes_init s' out E).
Defined.

(** X13. When the notebook-level [img] is taller than the frame, a
    frame with pixels on both sides of well-formed lanes ends in
    [IndexError] at the offset, after both lanes have been updated: the
    exception does not undo the updates, and [line_base_pos] is not
    overwritten with the offset. *)
Theorem taller_img_raises_after_updates (lstsq : list Q -> list Q -> poly)
    (img_shape0 : nat) (binary_warped : image) (nwindows : nat) (margin : Z)
    (minpix : nat) (s : Lanes) (leftx lefty rightx righty : list Z) :
  window_search binary_warped nwindows margin minpix
    = inr (leftx, lefty, rightx, righty) ->
  leftx <> [] -> rightx <> [] ->
  (0 < shape0 binary_warped < img_shape0)%nat ->
  Line_wf (shape0 binary_warped) (left s) ->
  Line_wf (shape0 binary_warped) (right s) ->
  let height := shape0 binary_warped in
  let ploty := linspace height in
  let y_eval := inject_Z (Z.of_nat (height - 1)) in
  let left_fit := lstsq (to_float lefty) (to_float leftx) in
  let right_fit := lstsq (to_float righty) (to_float rightx) in
  find_lanes lstsq img_shape0 binary_warped nwindows margin minpix s =
  (inl IndexError,
   mkLanes
     (snd (update_left ploty left_fit (sample height left_fit) leftx lefty (left s)))
     (snd (update_right ploty y_eval right_fit (sample height right_fit)
                        rightx righty (right s)))).
Proof.
  intros Hsearch Hnl Hnr [Hpos Htall] Hwl Hwr. cbv zeta.
  destruct (window_search_lengths _ _ _ _ _ _ _ _ Hsearch) as [Hll Hlr].
  unfold find_lanes, bind, lift. rewrite Hsearch.
  rewrite (polyfit_nonempty lstsq (to_float lefty) (to_float leftx))
    by (unfold to_float; rewrite !length_map, ?Hll;
        try reflexivity; apply nonempty_length, Hnl).
  rewrite (polyfit_nonempty lstsq (to_float righty) (to_float rightx))
    by (unfold to_float; rewrite !length_map, ?Hlr;
        try reflexivity; apply nonempty_length, Hnr).
  rewrite (polyfit_nonempty lstsq (scale ym_per_pix lefty) (scale xm_per_pix leftx))
    by (unfold scale; rewrite !length_map, ?Hll;
        try reflexivity; apply nonempty_length, Hnl).
  rewrite (polyfit_nonempty lstsq (scale ym_per_pix righty) (scale xm_per_pix rightx))
    by (unfold scale; rewrite !length_map, ?Hlr;
        try reflexivity; apply nonempty_length, Hnr).
  destruct (shape0 binary_warped) as [|h] eqn:EH; [lia|].
  rewrite amax_linspace_last.
  replace (S h - 1)%nat with h by lia.
  set (rf := lstsq (to_float righty) (to_float rightx)).
  set (lf := lstsq (to_float lefty) (to_float leftx)).
  unfold sample.
  unfold on_right at 1, update_right.
  destruct (update_line_wf (S h) (linspace (S h)) (inject_Z (Z.of_nat h)) rf
              (map (polyval rf) (linspace (S h))) rightx righty (right s) Hwr)
    as [_ [[rfit rfitx] Er]];
    [rewrite length_map; apply length_linspace|].
  destruct (update_line (linspace (S h)) (inject_Z (Z.of_nat h)) rf _ rightx righty
                        (right s)) as [rres lr] eqn:Eur.
  cbn [fst snd] in Er. subst rres.
  unfold on_left at 1, update_left. cbn [left right].
  destruct (update_line_wf (S h) (linspace (S h)) 720 lf
              (map (polyval lf) (linspace (S h))) leftx lefty (left s) Hwl)
    as [_ [[lfit lfitx] El]];
    [rewrite length_map; apply length_linspace|].
  destruct (update_line (linspace (S h)) 720 lf _ leftx lefty (left s))
    as [lres ll] eqn:Eul.
  cbn [fst snd] in El. subst lres.
  apply update_line_result in Eul. destruct Eul as [_ ->].
  cbn [fst snd]. rewrite getitem_sampled.
  destruct (Nat.ltb_spec (S h) img_shape0) as [_|C]; [reflexivity | lia].
Qed.

(** An [img] of 7 rows with a frame of 6, on fresh lanes: the frame raises,
    both lanes have been seeded and no offset is stored. *)
Lemma taller_img_raises_after_updates_witness :
  let r := find_lanes normal_fit 7 two_columns 3 2%Z 0 Lanes_init in
  fst r = inl IndexError /\
  length (recent_fits (left (snd r))) = 1%nat /\
  length (recent_fits (right (snd r))) = 1%nat /\
  line_base_pos (left (snd r)) = None.
Proof.
  cbv zeta.
  destruct (window_search two_columns 3 2%Z 0)
    as [e|[[[leftx lefty] rightx] righty]] eqn:E.
  - vm_compute in E. discriminate.
  - assert (Hl : leftx <> []) by (vm_compute in E; intros ->; discriminate).
    assert (Hr : rightx <> []) by (vm_compute in E; intros ->; discriminate).
    rewrite (taller_img_raises_after_updates normal_fit 7 two_columns 3 2%Z 0%nat
               Lanes_init leftx lefty rightx righty E Hl Hr).
    + cbn [fst snd left right]. unfold update_left, update_right.
      rewrite !update_line_seed by reflexivity.
      rewrite !seed_line_run. cbn. repeat split; reflexivity.
    + cbn. lia.
    + apply Line_init_wf.
    + apply Line_init_wf.
Defined.

(** ** The two smoothed estimates agree *)

Lemma Qsum_polyval (fits : list poly) (y : Q) :
  Qsum (map (fun f => polyval f y) fits) ==
  Qsum (map f0 fits) * y ^ 2 + Qsum (map f1 fits) * y + Qsum (map f2 fits).
Proof.
  induction fits as [|f fits IH]; cbn [map Qsum fold_right].
  - ring.
  - fold (Qsum (map (fun f => polyval f y) fits)).
    fold (Qsum (map f0 fits)). fold (Qsum (map f1 fits)). fold (Qsum (map f2 fits)).
    rewrite IH. unfold polyval. ring.
Qed.

(** The mean of the values is the value of the mean: [polyval] is linear
    in the coefficients. *)
Lemma mean_polyval (fits : list poly) (y : Q) :
  mean (map (fun f => polyval f y) fits) == polyval (average_fits fits) y.
Proof.
  unfold mean at 1. rewrite length_map, Qsum_polyval.
  unfold average_fits, polyval, mean. cbn [f0 f1 f2].
  rewrite !length_map. unfold Qdiv. ring.
Qed.

Lemma column_of_samples (H j : nat) (fits : list poly) :
  (j < H)%nat ->
  column j (map (sample H) fits)
  = map (fun f => polyval f (inject_Z (Z.of_nat j))) fits.
Proof.
  intros Hj. unfold column. rewrite map_map. apply map_ext. intros f.
  unfold sample. apply nth_sampled, Hj.
Qed.

Lemma means_of_samples (H : nat) (fits : list poly) :
  Forall2 Qeq
    (map (fun j => mean (column j (map (sample H) fits))) (seq 0 H))
    (sample H (average_fits fits)).
Proof.
  unfold sample, linspace. rewrite map_map.
  assert (Hgen : forall l : list nat,
    (forall j, In j l -> (j < H)%nat) ->
    Forall2 Qeq (map (fun j => mean (column j (map (sample H) fits))) l)
                (map (fun j => polyval (average_fits fits) (inject_Z (Z.of_nat j))) l)).
  { induction l as [|j l IH]; intros Hl; cbn [map]; constructor.
    - rewrite column_of_samples by (apply Hl; left; reflexivity).
      apply mean_polyval.
    - apply IH. intros k Hk. apply Hl. right. exact Hk. }
  apply Hgen. intros j Hj. apply in_seq in Hj. lia.
Qed.

Lemma deque_append_map {A B : Type} (g : A -> B) (m : nat) (q : list A) (x : A) :
  deque_append m (map g q) (g x) = map g (deque_append m q x).
Proof.
  unfold deque_append. rewrite !length_app, !length_map. cbn [length].
  change [g x] with (map g [x]). rewrite <- map_app.
  destruct (m <? length q + 1)%nat; [|reflexivity].
  destruct (q ++ [x]); reflexivity.
Qed.

Lemma removelast_map {A B : Type} (g : A -> B) (q : list A) :
  removelast (map g q) = map g (removelast q).
Proof.
  destruct q as [|a q'] using rev_ind; [reflexivity|].
  rewrite map_app. cbn [map]. rewrite !removelast_last. reflexivity.
Qed.

Lemma lastn_map {A B : Type} (g : A -> B) (k : nat) (q : list A) :
  lastn k (map g q) = map g (lastn k q).
Proof. unfold lastn. rewrite length_map. apply skipn_map. Qed.

Lemma Forall2_Qeq_refl (v : list Q) : Forall2 Qeq v v.
Proof. induction v; constructor; [reflexivity | assumption]. Qed.

(** An update whose curve is its fit sampled over the rows keeps the
    agreement, on a well-formed lane. *)
Lemma update_line_samples_agree (H : nat) (ploty : list Q) (ybase : Q) (fit : poly)
    (xs ys : list Z) (l : Line) :
  Line_wf H l ->
  samples_agree H l ->
  samples_agree H (snd (update_line ploty ybase fit (sample H fit) xs ys l)).
Proof.
  intros Hwf [Hcur Hbest].
  pose proof Hwf as (Hlen & Hall & Hsome).
  destruct (recent_fits l) as [|f fs] eqn:Ef.
  - rewrite (update_line_seed _ _ _ _ _ _ _ Ef), seed_line_run. cbn [snd].
    unfold samples_agree. cbn [recent_xfitted recent_fits bestx best_fit].
    rewrite Hcur, Ef. cbn [map]. split; [reflexivity | apply Forall2_Qeq_refl].
  - assert (Hne : recent_fits l <> []) by (rewrite Ef; discriminate).
    rewrite <- Ef in *. clear Ef f fs.
    destruct (Hsome Hne) as (bx & bf & Hbx & Hbxlen & Hbf).
    assert (Hd : vsub (sample H fit) bx = inr (map2 Qminus (sample H fit) bx)).
    { apply vsub_same_length. rewrite length_sample. congruence. }
    rewrite (update_line_tracking ploty ybase fit (sample H fit) xs ys l bx _
               Hne Hbx Hd).
    cbv zeta. set (l1 := set_diffs _ _).
    assert (Hxne : recent_xfitted l <> []).
    { apply nonempty_length. rewrite Hlen. apply nonempty_length, Hne. }
    destruct (accept_test _ _ bx).
    + rewrite (accept_line_ok fit (sample H fit) l1
        (map (fun j => mean (column j (deque_append n (recent_xfitted l) (sample H fit))))
             (seq 0 H))).
      * cbn. unfold samples_agree. cbn.
        rewrite Hcur, deque_append_map. split; [reflexivity|].
        apply means_of_samples.
      * cbn. apply average_rows_ok.
        -- apply nonempty_length. rewrite length_deque_append. unfold n.
           destruct (Nat.ltb_spec 15 (S (length (recent_xfitted l)))); lia.
        -- apply Forall_deque_append; [exact Hall | apply length_sample].
    + destruct (removelast (recent_fits l)) as [|g gs] eqn:Eg.
      * rewrite reject_line_last; cbn; trivial.
        rewrite Hbf. cbn. unfold samples_agree. cbn.
        rewrite Hcur, removelast_map, Eg. split; [reflexivity|].
        rewrite Hbx, Hbf in Hbest. rewrite Hbx. exact Hbest.
      * assert (Hrf : removelast (recent_fits l) <> []) by (rewrite Eg; discriminate).
        rewrite (reject_line_ok l1
          (map (fun j => mean (column j (lastn n_avg (removelast (recent_xfitted l)))))
               (seq 0 H))).
        -- cbn. unfold samples_agree. cbn.
           rewrite Hcur, removelast_map. split; [reflexivity|].
           rewrite lastn_map. apply means_of_samples.
        -- exact Hxne.
        -- exact Hrf.
        -- cbn. apply average_rows_ok.
           ++ apply nonempty_length.
              apply nonempty_length in Hrf. rewrite length_removelast in Hrf.
              rewrite length_lastn, length_removelast, Hlen. unfold n_avg. lia.
           ++ apply Forall_lastn, Forall_removelast, Hall.
Qed.

(** X14. Through a video whose frames share a height, and from fresh
    lanes, the two smoothed estimates of a lane never part: [bestx], the
    mean of the stored curves, is row by row the value of [best_fit], the
    mean of the stored fits, and every stored curve is its fit sampled
    over the rows. Redrawing a lane from [best_fit], as [find_lanes] does,
    gives the curve held in [bestx]. *)
Theorem smoothed_curve_is_curve_of_smoothed_fit (lstsq : list Q -> list Q -> poly)
    (img_shape0 height : nat) (frames : list image) :
  Forall (fun f => shape0 f = height) frames ->
  let s := snd (run_video lstsq img_shape0 frames Lanes_init) in
  samples_agree height (left s) /\ samples_agree height (right s).
Proof.
  intros Hframes. cbv zeta.
  assert (Hgen : forall s : Lanes,
    (Line_wf height (left s) /\ samples_agree height (left s)) ->
    (Line_wf height (right s) /\ samples_agree height (right s)) ->
    let s' := snd (run_video lstsq img_shape0 frames s) in
    (Line_wf height (left s') /\ samples_agree height (left s')) /\
    (Line_wf height (right s') /\ samples_agree height (right s'))).
  { induction Hframes as [|f frames Hf _ IH]; intros s Hl Hr; cbn [run_video].
    - auto.
    - unfold process_image. subst height.
      pose proof (find_lanes_preserves lstsq img_shape0
        (fun l => Line_wf (shape0 f) l /\ samples_agree (shape0 f) l)
        f 9 100%Z 50 s) as Hpres.
      cbv beta zeta in Hpres.
      assert (Hnext : (Line_wf (shape0 f) (left (snd (find_lanes lstsq img_shape0 f 9 100%Z 50 s))) /\
                       samples_agree (shape0 f) (left (snd (find_lanes lstsq img_shape0 f 9 100%Z 50 s)))) /\
                      (Line_wf (shape0 f) (right (snd (find_lanes lstsq img_shape0 f 9 100%Z 50 s))) /\
                       samples_agree (shape0 f) (right (snd (find_lanes lstsq img_shape0 f 9 100%Z 50 s))))).
      { apply Hpres.
        - intros ybase fit xs ys l [Hwf Hag]. split.
          + apply update_line_wf; [exact Hwf | apply length_sample].
          + apply update_line_samples_agree; assumption.
        - intros v l Hp. exact Hp.
        - exact Hl.
        - exact Hr. }
      clear Hpres. destruct Hnext as [Hl' Hr'].
      destruct (find_lanes lstsq img_shape0 f 9 100%Z 50 s) as [[e|out] s1];
        cbn [snd] in *.
      + auto.
      + apply IH; assumption. }
  destruct (Hgen Lanes_init) as [[_ Hl] [_ Hr]].
  - split; [apply Line_init_wf|]. split; [reflexivity | exact I].
  - split; [apply Line_init_wf|]. split; [reflexivity | exact I].
  - split; assumption.
Qed.

(** Two frames of [road], the second accepted on both sides. *)
Lemma smoothed_curve_is_curve_of_smoothed_fit_witness :
  let s := snd (run_video normal_fit 9 [road; road] Lanes_init) in
  length (recent_fits (right s)) = 2%nat /\
  samples_agree 9 (left s) /\ samples_agree 9 (right s).
Proof.
  cbv zeta. split; [vm_compute; reflexivity|].
  apply (smoothed_curve_is_curve_of_smoothed_fit normal_fit 9 9 [road; road]).
  repeat constructor.
Defined.
